(** * wifiapp.py: signal-to-distance estimation and the reading log

    A shallow embedding of [src/wifiapp.py]: the Python float arithmetic
    used by [calculate_distance], the scan-output parser of
    [get_wifi_signal], the [wifi_signal] table with [log_to_database] and
    [fetch_logs], the CSV export and the [scan] and [debug_logs] handlers. *)

From Stdlib Require Import ZArith List String Ascii Bool Lia.
From Stdlib Require Import Permutation Sorted.
Import ListNotations.

Local Open Scope Z_scope.

(** ** Python exceptions and the error monad *)

Inductive exn : Type :=
| OverflowError
| ValueError
| ZeroDivisionError
| CalledProcessError.

Inductive exc (A : Type) : Type :=
| Ok (a : A)
| Raise (e : exn).
Arguments Ok {A} a.
Arguments Raise {A} e.

Definition bind {A B : Type} (c : exc A) (k : A -> exc B) : exc B :=
  match c with
  | Ok a => k a
  | Raise e => Raise e
  end.

Declare Scope exc_scope.
Delimit Scope exc_scope with exc.
Notation "x <- c ;; k" := (bind c (fun x => k))
  (at level 61, c at next level, right associativity) : exc_scope.

(** ** Binary64 floating point

    Every finite double is an integer multiple of the least subnormal
    [2^-1074]; [Fin n] is the double of value [n * 2^-1074].  The sign of
    zero is not tracked: no operation used by the program observes it. *)

Module B64.

Definition emin : Z := 1074.
Definition prec : Z := 53.
(** [2^1024], scaled: the least magnitude that overflows. *)
Definition huge : Z := 2 ^ (1024 + emin).

Inductive float : Type :=
| Fin (n : Z)
| PInf
| NInf
| NaN.

(** The nearest integer to [num / den] ([den > 0]), ties to even. *)
Definition round_half_even (num den : Z) : Z :=
  let q := num / den in
  let r := num mod den in
  match 2 * r ?= den with
  | Lt => q
  | Gt => q + 1
  | Eq => if Z.even q then q else q + 1
  end.

(** Binary exponent of the unit in the last place of a scaled magnitude
    [x >= 0], relative to the least subnormal. *)
Definition ulp_exp (x : Z) : Z :=
  if x <? 2 ^ prec then 0 else Z.log2 x - (prec - 1).

(** [num / den] ([den > 0]) rounded to the grid of doubles, as a scaled
    integer, before the range check. *)
Definition round_scaled (num den : Z) : Z :=
  let j := ulp_exp (Z.abs (num * 2 ^ emin) / den) in
  round_half_even (num * 2 ^ emin) (den * 2 ^ j) * 2 ^ j.

Definition of_scaled (n : Z) : float :=
  if huge <=? n then PInf
  else if n <=? - huge then NInf
  else Fin n.

(** Round-to-nearest-even of the rational [num / den], [den > 0]. *)
Definition round_ratio (num den : Z) : float :=
  of_scaled (round_scaled num den).

(** A decimal literal [m * 10^-d], as the parser reads it. *)
Definition of_decimal (m : Z) (d : Z) : float :=
  round_ratio m (10 ^ d).

Definition of_Z (z : Z) : float := round_ratio z 1.

(** IEEE multiplication. *)
Definition sign (x : float) : Z :=
  match x with
  | Fin n => Z.sgn n
  | PInf => 1
  | NInf => -1
  | NaN => 0
  end.

Definition mul (x y : float) : float :=
  match x, y with
  | NaN, _ | _, NaN => NaN
  | Fin a, Fin b => round_ratio (a * b) (2 ^ emin * 2 ^ emin)
  | _, _ =>
      match sign x * sign y with
      | Z0 => NaN
      | Zpos _ => PInf
      | Zneg _ => NInf
      end
  end.

(** IEEE comparison [x <= y]; false when either side is a NaN. *)
Definition leb (x y : float) : bool :=
  match x, y with
  | NaN, _ | _, NaN => false
  | NInf, _ => true
  | _, PInf => true
  | Fin a, Fin b => a <=? b
  | _, _ => false
  end.

Definition le (x y : float) : Prop := leb x y = true.

Definition is_inf (x : float) : bool :=
  match x with
  | PInf | NInf => true
  | _ => false
  end.

Definition zero : float := Fin 0.
Definition one : float := Fin (2 ^ emin).

(** The largest finite double, scaled. *)
Definition max_finite : Z := (2 ^ 53 - 1) * 2 ^ (971 + emin).

(** The non-negative values of the format: a finite double or [+inf]. *)
Definition nonneg (x : float) : Prop :=
  match x with
  | Fin n => 0 <= n <= max_finite
  | PInf => True
  | _ => False
  end.

End B64.

(** ** Python numbers and the operators used by the estimator *)

Module Py.
Import B64.

Inductive num : Type :=
| PyInt (z : Z)
| PyFloat (x : float).

(** [float(z)] of an integer used in a mixed comparison is exact: Python
    compares an [int] and a [float] by value. *)
Definition num_leb (a b : num) : bool :=
  match a with
  | PyInt x =>
      match b with
      | PyInt y => x <=? y
      | PyFloat (Fin n) => x * 2 ^ emin <=? n
      | PyFloat PInf => true
      | PyFloat _ => false
      end
  | PyFloat x =>
      match b with
      | PyFloat y => leb x y
      | PyInt y =>
          match x with
          | Fin n => n <=? y * 2 ^ emin
          | NInf => true
          | _ => false
          end
      end
  end.

Definition num_le (a b : num) : Prop := num_leb a b = true.

(** [a == b] on numbers: equality of the values. *)
Definition num_eqb (a b : num) : bool := num_leb a b && num_leb b a.

(** [a / b] on integers: the correctly rounded quotient. *)
Definition int_truediv (a b : Z) : exc float :=
  if b =? 0 then Raise ZeroDivisionError
  else
    let r := if 0 <? b then round_ratio a b else round_ratio (- a) (- b) in
    if is_inf r then Raise OverflowError else Ok r.

(** [round(x, ndigits)]: the decimal nearest to the exact value of [x],
    ties to even, read back as a double; infinities and NaN round to
    themselves. *)
Definition round (x : float) (ndigits : Z) : exc float :=
  match x with
  | Fin n =>
      let r :=
        if 0 <=? ndigits
        then round_ratio (round_half_even (n * 10 ^ ndigits) (2 ^ emin))
                         (10 ^ ndigits)
        else of_Z (round_half_even n (2 ^ emin * 10 ^ (- ndigits))
                   * 10 ^ (- ndigits)) in
      if is_inf r then Raise OverflowError else Ok r
  | _ => Ok x
  end.

Section Pow.

(** The C library's [pow(10.0, y)] at a finite non-zero double [y], given
    as its scaled integer. *)
Variable libm_pow10 : Z -> float.

(** [10 ** w] for a float [w]: the special cases are decided before the
    library is called, and an infinite library result is a range error. *)
Definition float_pow10 (w : float) : exc float :=
  match w with
  | Fin 0 => Ok one
  | NaN => Ok NaN
  | PInf => Ok PInf
  | NInf => Ok zero
  | Fin n =>
      let r := libm_pow10 n in
      if is_inf r then Raise OverflowError else Ok r
  end.

End Pow.

End Py.

(** ** A reference model of the C library's [pow(10.0, y)]

    [10^y = 10^i * exp (f * ln 10)] with [i] the integer part and [f] the
    fraction of [y]; the exponential is summed in fixed point with 160
    fractional bits and the product is rounded once.  At an integer [y]
    the result is the correctly rounded power of ten. *)

Module Libm.
Import B64.

Definition fbits : Z := 2 ^ 160.

(** [floor (ln 10 * 2^160)]. *)
Definition ln10_fixed : Z :=
  3365231883504527125129111981421568120141379515367.

(** Horner evaluation of [sum_(k <= t) x^k / k!], scaled by [fbits]. *)
Fixpoint exp_horner (t : nat) (x acc : Z) : Z :=
  match t with
  | O => acc
  | S t' => exp_horner t' x (fbits + x * acc / (Z.of_nat t * fbits))
  end.

Definition pow10 (n : Z) : float :=
  if 309 * 2 ^ emin <=? n then PInf
  else if n <=? - 400 * 2 ^ emin then zero
  else
    let i := n / 2 ^ emin in
    let f := n mod 2 ^ emin in
    let x := f * ln10_fixed / 2 ^ emin in
    let e := exp_horner 80 x fbits in
    if 0 <=? i then round_ratio (e * 10 ^ i) fbits
    else round_ratio e (fbits * 10 ^ (- i)).

End Libm.

(** ** Distance estimator *)

Definition REFERENCE_RSSI : Z := -50.
Definition PATH_LOSS_EXPONENT : Z := 2.

Section Estimator.
Import B64 Py.
Local Open Scope exc_scope.

Variable libm_pow10 : Z -> float.

(** The input of the formula: a positive reading is shifted by 100. *)
Definition normalize (rssi : Z) : Z :=
  if 0 <? rssi then rssi - 100 else rssi.

(** Lines 53-54: the exponent and the power. *)
Definition distance_meters (rssi : Z) : exc float :=
  exponent <- int_truediv (REFERENCE_RSSI - rssi) (10 * PATH_LOSS_EXPONENT) ;;
  float_pow10 libm_pow10 exponent.

(** The body of the [try] block, after normalization. *)
Definition distance_formula (rssi : Z) : exc float :=
  distance_meters <- distance_meters rssi ;;
  let distance_feet := mul distance_meters (of_decimal 328084 5) in
  round distance_feet 2.

(** Any exception of the body is caught and answered by the integer 0. *)
Definition calculate_distance (rssi : Z) : num :=
  match distance_formula (normalize rssi) with
  | Ok d => PyFloat d
  | Raise _ => PyInt 0
  end.

End Estimator.

(** [p] is the power [10^(k/20)] to within 5 parts in 100000: the 20th
    power of its value lies within one part in a thousand of [10^k].  For
    a negative [k] the power of ten is moved to the other side. *)
Definition pow10_accurate (k : Z) (p : B64.float) : Prop :=
  match p with
  | B64.Fin n =>
      0 <= n /\
      999 * (10 ^ Z.max k 0 * (2 ^ B64.emin) ^ 20)
        <= 1000 * (n ^ 20 * 10 ^ Z.max (- k) 0) /\
      1000 * (n ^ 20 * 10 ^ Z.max (- k) 0)
        <= 1001 * (10 ^ Z.max k 0 * (2 ^ B64.emin) ^ 20)
  | _ => False
  end.

(** ** Strings: the fragment of [str] the scan parser uses

    Characters are 8-bit code points. *)

Module PyStr.

(** [str.isspace] on one character. *)
Definition is_space (c : ascii) : bool :=
  let n := Z.of_nat (nat_of_ascii c) in
  ((9 <=? n) && (n <=? 13)) || ((28 <=? n) && (n <=? 32))
  || (n =? 133) || (n =? 160).

Definition is_digit (c : ascii) : bool :=
  let n := Z.of_nat (nat_of_ascii c) in (48 <=? n) && (n <=? 57).

Definition digit_value (c : ascii) : Z := Z.of_nat (nat_of_ascii c) - 48.

Fixpoint lstrip (s : string) : string :=
  match s with
  | String c s' => if is_space c then lstrip s' else s
  | EmptyString => EmptyString
  end.

Fixpoint rstrip (s : string) : string :=
  match s with
  | String c s' =>
      match rstrip s' with
      | EmptyString => if is_space c then EmptyString else String c EmptyString
      | r => String c r
      end
  | EmptyString => EmptyString
  end.

Definition strip (s : string) : string := rstrip (lstrip s).

(** [s.split(sep)] for a one-character separator. *)
Fixpoint split (sep : ascii) (s : string) : list string :=
  match s with
  | EmptyString => [EmptyString]
  | String c s' =>
      if Ascii.eqb c sep then EmptyString :: split sep s'
      else
        match split sep s' with
        | h :: t => String c h :: t
        | [] => [String c EmptyString]
        end
  end.

(** [s.count(c)] for one character. *)
Fixpoint count (c : ascii) (s : string) : nat :=
  match s with
  | EmptyString => O
  | String c' s' => if Ascii.eqb c' c then S (count c s') else count c s'
  end.

(** Every character of [s] satisfies [p]. *)
Fixpoint all_chars (p : ascii -> bool) (s : string) : bool :=
  match s with
  | EmptyString => true
  | String c s' => p c && all_chars p s'
  end.

(** The whitespace [int] skips around a literal: the ASCII blanks, and the
    whitespace above 127, which the conversion first turns into a blank.
    The separators U+001C to U+001F are not among them. *)
Definition is_int_space (c : ascii) : bool :=
  let n := Z.of_nat (nat_of_ascii c) in
  ((9 <=? n) && (n <=? 13)) || (n =? 32) || (n =? 133) || (n =? 160).

Fixpoint skip_int_space (s : string) : string :=
  match s with
  | String c s' => if is_int_space c then skip_int_space s' else s
  | EmptyString => EmptyString
  end.

(** The default of [sys.get_int_max_str_digits]. *)
Definition int_max_str_digits : Z := 4300.

(** The end of the digits: a literal needs a last digit and at most
    [int_max_str_digits] digits. *)
Definition finish_digits (acc digits : Z) (after_digit : bool) : exc Z :=
  if after_digit
  then if int_max_str_digits <? digits then Raise ValueError else Ok acc
  else Raise ValueError.

(** Decimal digits with single underscores between digits, then only
    whitespace; [digits] counts the digits read. *)
Fixpoint parse_digits (s : string) (acc digits : Z) (after_digit : bool)
  : exc Z :=
  match s with
  | EmptyString => finish_digits acc digits after_digit
  | String c s' =>
      if is_digit c
      then parse_digits s' (acc * 10 + digit_value c) (digits + 1) true
      else if Ascii.eqb c "_"%char && after_digit
      then parse_digits s' acc digits false
      else if all_chars is_int_space s
      then finish_digits acc digits after_digit
      else Raise ValueError
  end.

(** [int(s)] in base 10. *)
Definition int (s : string) : exc Z :=
  match skip_int_space s with
  | String "-"%char s' => bind (parse_digits s' 0 0 false) (fun z => Ok (- z))
  | String "+"%char s' => parse_digits s' 0 0 false
  | s' => parse_digits s' 0 0 false
  end.

End PyStr.

(** ** Signal source adapter *)

Local Open Scope exc_scope.

(** [ssid, signal = line.split(":")] and [(ssid, int(signal))]. *)
Definition parse_line (line : string) : exc (string * Z) :=
  match PyStr.split ":"%char line with
  | [ssid; signal] => signal' <- PyStr.int signal ;; Ok (ssid, signal')
  | _ => Raise ValueError
  end.

(** The [for] loop over the lines, appending to [wifi_info]. *)
Fixpoint parse_lines (lines : list string) (wifi_info : list (string * Z))
  : exc (list (string * Z)) :=
  match lines with
  | [] => Ok wifi_info
  | line :: rest =>
      pair <- parse_line line ;;
      parse_lines rest (wifi_info ++ [pair])
  end.

Definition newline : ascii := ascii_of_nat 10.

(** [nmcli] is the outcome of [subprocess.check_output]: the text the
    utility printed, or the exception of a failed invocation. *)
Definition get_wifi_signal (nmcli : exc string) : list (string * Z) :=
  match
    result <- nmcli ;;
    parse_lines (PyStr.split newline (PyStr.strip result)) []
  with
  | Ok wifi_info => wifi_info
  | Raise _ => []
  end.

(** ** Timestamps *)

(** A reading of [datetime.now]. *)
Record datetime : Type := {
  year : Z; month : Z; day : Z; hour : Z; minute : Z; second : Z;
  microsecond : Z
}.

Definition digit_char (n : Z) : ascii := ascii_of_nat (48 + Z.to_nat (n mod 10)).

Definition pad2 (n : Z) (rest : string) : string :=
  String (digit_char (n / 10)) (String (digit_char n) rest).

Definition pad4 (n : Z) (rest : string) : string :=
  String (digit_char (n / 1000)) (String (digit_char (n / 100))
    (pad2 n rest)).

(** [strftime("%Y-%m-%d %H:%M:%S")], for a year of four digits; the
    microsecond is not printed. *)
Definition strftime (t : datetime) : string :=
  pad4 (year t) (String "-" (pad2 (month t) (String "-" (pad2 (day t)
    (String " " (pad2 (hour t) (String ":" (pad2 (minute t)
      (String ":" (pad2 (second t) EmptyString))))))))))%char.

(** Chronological order of the seconds two times fall in: the printed
    fields compared from the year down. *)
Definition datetime_compare (a b : datetime) : comparison :=
  match year a ?= year b with
  | Eq =>
    match month a ?= month b with
    | Eq =>
      match day a ?= day b with
      | Eq =>
        match hour a ?= hour b with
        | Eq =>
          match minute a ?= minute b with
          | Eq => second a ?= second b
          | c => c
          end
        | c => c
        end
      | c => c
      end
    | c => c
    end
  | c => c
  end.

(** The printed fields are in the ranges of [datetime.now], with a year of
    four digits. *)
Definition well_formed (t : datetime) : Prop :=
  1000 <= year t <= 9999 /\ 1 <= month t <= 12 /\ 1 <= day t <= 31 /\
  0 <= hour t <= 23 /\ 0 <= minute t <= 59 /\ 0 <= second t <= 59.

(** ** Log store: the [wifi_signal] table *)

(** The values an INTEGER column can hold: 64-bit signed. *)
Definition fits_int64 (z : Z) : bool :=
  (- 2 ^ 63 <=? z) && (z <? 2 ^ 63).

(** What the REAL column [distance] holds for a bound number: an integer
    is converted to the nearest double, a NaN is stored as NULL. *)
Definition real_affinity (d : Py.num) : option B64.float :=
  match d with
  | Py.PyInt z => Some (B64.of_Z z)
  | Py.PyFloat B64.NaN => None
  | Py.PyFloat x => Some x
  end.

(** Binding a number as a statement parameter: an integer outside 64 bits
    is refused. *)
Definition sql_bind (d : Py.num) : exc Py.num :=
  match d with
  | Py.PyInt z => if fits_int64 z then Ok d else Raise OverflowError
  | Py.PyFloat _ => Ok d
  end.

(** A fetched row: [distance] is [None] for NULL. *)
Record Reading : Type := {
  id : Z;
  timestamp : string;
  ssid : string;
  rssi : Z;
  distance : option B64.float
}.

(** The table in rowid order, the AUTOINCREMENT counter, and the number of
    clock readings that have stamped a row. *)
Record World : Type := {
  wifi_signal : list Reading;
  sqlite_sequence : Z;
  ticks : nat
}.

(** [CREATE TABLE IF NOT EXISTS]: an existing table is left as it is. *)
Definition setup_database (db : option World) : World :=
  match db with
  | Some w => w
  | None => {| wifi_signal := []; sqlite_sequence := 0; ticks := 0 |}
  end.

(** [ORDER BY timestamp DESC]: text comparison of the stored strings; rows
    of equal timestamp keep their rowid order. *)
Fixpoint insert_desc (r : Reading) (l : list Reading) : list Reading :=
  match l with
  | [] => [r]
  | x :: l' =>
      if String.leb (timestamp x) (timestamp r) then r :: l
      else x :: insert_desc r l'
  end.

Definition order_by_timestamp_desc (l : list Reading) : list Reading :=
  fold_right insert_desc [] l.

(** [a] may precede [b] in a listing that is descending by timestamp. *)
Definition newer_first (a b : Reading) : Prop :=
  String.leb (timestamp b) (timestamp a) = true.

(** A filter that is [None] or the empty string is falsy: no WHERE clause. *)
Definition fetch_logs (filter_ssid : option string) (w : World) : list Reading :=
  match filter_ssid with
  | Some (String c s) =>
      order_by_timestamp_desc
        (filter (fun r => String.eqb (ssid r) (String c s)) (wifi_signal w))
  | _ => order_by_timestamp_desc (wifi_signal w)
  end.

(** ** Export adapter *)

Inductive cell : Type :=
| CInt (z : Z)
| CText (s : string)
| CNum (n : option B64.float).

Definition csv_header : list cell :=
  [CText "ID"; CText "Timestamp"; CText "SSID"; CText "RSSI (dBm)";
   CText "Distance (m)"]%string.

(** A fetched row is the tuple of the table's columns. *)
Definition row_cells (r : Reading) : list cell :=
  [CInt (id r); CText (timestamp r); CText (ssid r); CInt (rssi r);
   CNum (distance r)].

(** The path returned and the rows written to it. *)
Definition export_logs_to_csv (w : World) : string * list (list cell) :=
  let logs := fetch_logs None w in
  let csv_file := "wifi_signal_logs.csv"%string in
  (csv_file, csv_header :: map row_cells logs).

(** ** Request handlers *)

(** JSON bodies: a scalar, and an object as the list of its members. *)
Inductive jvalue : Type :=
| JString (s : string)
| JNumber (n : Py.num)
| JNull.

Definition jobject : Type := list (string * jvalue).

Section Handlers.

Variable libm_pow10 : Z -> B64.float.
(** The wall clock: [wall_clock n] is the reading of [datetime.now] that
    stamps the n-th row stored.  A reading made for an INSERT that then
    raises stamps nothing and is not numbered. *)
Variable wall_clock : nat -> datetime.

(** The INSERT binds [rssi] and [distance]; when a bind raises nothing is
    written. *)
Definition log_to_database (ssid : string) (rssi : Z) (distance : Py.num)
  (w : World) : exc World :=
  let timestamp := strftime (wall_clock (ticks w)) in
  rssi' <- sql_bind (Py.PyInt rssi) ;;
  distance' <- sql_bind distance ;;
  let rowid := sqlite_sequence w + 1 in
  Ok {| wifi_signal := wifi_signal w ++
          [{| id := rowid; timestamp := timestamp; ssid := ssid;
              rssi := rssi; distance := real_affinity distance' |}];
        sqlite_sequence := rowid;
        ticks := S (ticks w) |}.

(** The [for] loop of [scan]: an exception of [log_to_database] ends it,
    with the rows stored so far in place. *)
Fixpoint scan_loop (wifi_signals : list (string * Z)) (w : World)
  : exc unit * World :=
  match wifi_signals with
  | [] => (Ok tt, w)
  | (ssid, rssi) :: rest =>
      if rssi <? -80 then scan_loop rest w
      else
        let distance := calculate_distance libm_pow10 rssi in
        match log_to_database ssid rssi distance w with
        | Ok w' => scan_loop rest w'
        | Raise e => (Raise e, w)
        end
  end.

(** The response, or the exception that the framework answers with a
    status 500, and the store afterwards. *)
Definition scan (nmcli : exc string) (w : World) : exc jobject * World :=
  let wifi_signals := get_wifi_signal nmcli in
  let (looped, w') :=
    match wifi_signals with
    | [] => (Ok tt, w)
    | _ => scan_loop wifi_signals w
    end in
  (_ <- looped ;; Ok [("status", JString "Scan complete")]%string, w').

(** The [for] loop of [debug_logs], appending to [debug_data]. *)
Fixpoint debug_loop (wifi_signals : list (string * Z))
  (debug_data : list jobject) : list jobject :=
  match wifi_signals with
  | [] => debug_data
  | (ssid, rssi) :: rest =>
      if rssi <? -80 then debug_loop rest debug_data
      else
        let distance := calculate_distance libm_pow10 rssi in
        debug_loop rest
          (debug_data ++
             [[("SSID", JString ssid); ("RSSI", JNumber (Py.PyInt rssi));
               ("Distance", JNumber distance)]%string])
  end.

(** The body of the response is the JSON array [debug_data]. *)
Definition debug_logs (nmcli : exc string) : list jobject :=
  let wifi_signals := get_wifi_signal nmcli in
  debug_loop wifi_signals [].

(** The stores a server started on a fresh database can reach: only [scan]
    writes. *)
Inductive reachable : World -> Prop :=
| reachable_setup : reachable (setup_database None)
| reachable_scan nmcli w : reachable w -> reachable (snd (scan nmcli w)).

(** The shape of a store filled by [scan] alone: identifiers 1, 2, ... in
    insertion order, the n-th row stamped by [wall_clock n], no weak
    signal, every signal within 64 bits and every distance the stored
    estimate of its signal. *)
Definition store_invariant (w : World) : Prop :=
  sqlite_sequence w = Z.of_nat (List.length (wifi_signal w)) /\
  ticks w = List.length (wifi_signal w) /\
  map id (wifi_signal w) =
    map Z.of_nat (seq 1 (List.length (wifi_signal w))) /\
  map timestamp (wifi_signal w) =
    map (fun i => strftime (wall_clock i))
        (seq 0 (List.length (wifi_signal w))) /\
  Forall (fun r => -80 <= rssi r /\ fits_int64 (rssi r) = true /\
                   distance r =
                     real_affinity (calculate_distance libm_pow10 (rssi r)))
         (wifi_signal w).

(** The pairs of a scan result that pass the weak-signal filter. *)
Definition strong_enough (wifi_signals : list (string * Z))
  : list (string * Z) :=
  filter (fun p => negb (snd p <? -80)) wifi_signals.

(** The pairs before the first one whose signal an INTEGER column cannot
    hold. *)
Fixpoint storable_prefix (pairs : list (string * Z)) : list (string * Z) :=
  match pairs with
  | [] => []
  | p :: rest => if fits_int64 (snd p) then p :: storable_prefix rest else []
  end.

End Handlers.

(** [/logs]: the fetched rows as JSON objects; [filter_ssid] is the [ssid]
    query parameter, [None] when absent. *)
Definition logs (filter_ssid : option string) (w : World) : list jobject :=
  map (fun row =>
         [("id", JNumber (Py.PyInt (id row)));
          ("timestamp", JString (timestamp row));
          ("ssid", JString (ssid row));
          ("rssi", JNumber (Py.PyInt (rssi row)));
          ("distance",
           match distance row with
           | Some x => JNumber (Py.PyFloat x)
           | None => JNull
           end)]%string)
      (fetch_logs filter_ssid w).

(** ** The text [nmcli -t -f SSID,SIGNAL] prints for a list of networks *)

(** The decimal digits of [n >= 0], most significant first, before [acc]. *)
Fixpoint decimal_digits (fuel : nat) (n : Z) (acc : string) : string :=
  match fuel with
  | O => acc
  | S fuel' =>
      let acc' := String (digit_char n) acc in
      if n <? 10 then acc' else decimal_digits fuel' (n / 10) acc'
  end.

Definition decimal (z : Z) : string :=
  if z <? 0
  then String "-"%char (decimal_digits (S (Z.to_nat (- z))) (- z) EmptyString)
  else decimal_digits (S (Z.to_nat z)) z EmptyString.

Definition nmcli_line (network : string * Z) : string :=
  (fst network ++ String ":"%char (decimal (snd network)))%string.

(** A name that the colon-separated, line-oriented format can carry. *)
Definition plain_ssid (s : string) : bool :=
  PyStr.all_chars
    (fun c => negb (Ascii.eqb c ":"%char) && negb (Ascii.eqb c newline)) s.

(** One line per network, each ended by a newline. *)
Fixpoint nmcli_output (networks : list (string * Z)) : string :=
  match networks with
  | [] => EmptyString
  | n :: rest => (nmcli_line n ++ String newline (nmcli_output rest))%string
  end.

(** ** Sample values *)

Definition noon : datetime :=
  {| year := 2024; month := 5; day := 17; hour := 12; minute := 0;
     second := 0; microsecond := 0 |}.

(** A clock that stands still. *)
Definition frozen_clock (n : nat) : datetime := noon.

(** A clock that advances one second per reading, for a minute. *)
Definition ticking_clock (n : nat) : datetime :=
  {| year := 2024; month := 5; day := 17; hour := 12; minute := 0;
     second := Z.of_nat n; microsecond := 0 |}.

(** The store after one scan of two networks on a fresh database. *)
Definition scanned_store (libm_pow10 : Z -> B64.float) : World :=
  snd (scan libm_pow10 ticking_clock
         (Ok (nmcli_output [("Cafe", 10); ("Bar", 20)]%string))
         (setup_database None)).

Definition sample_store : World :=
  {| wifi_signal :=
       [{| id := 1; timestamp := "2024-05-17 12:00:00"; ssid := "HomeNet";
           rssi := -60; distance := Some B64.zero |};
        {| id := 2; timestamp := "2024-05-17 12:00:01"; ssid := "Guest";
           rssi := -70; distance := Some B64.zero |}]%string;
     sqlite_sequence := 2;
     ticks := 2 |}.

(** * Properties *)

(** ** Rounding to binary64 *)

Module B64Facts.
Import B64.

Lemma round_half_even_spec num den :
  0 < den ->
  let q := round_half_even num den in
  (2 * q - 1) * den <= 2 * num <= (2 * q + 1) * den /\
  (2 * num = (2 * q + 1) * den -> Z.even q = true) /\
  (2 * num = (2 * q - 1) * den -> Z.even q = true).
Proof.
  intros Hd. unfold round_half_even.
  pose proof (Z.div_mod num den ltac:(lia)) as E.
  pose proof (Z.mod_pos_bound num den Hd) as B.
  set (k := num / den) in *. set (r := num mod den) in *.
  destruct (Z.compare_spec (2 * r) den) as [C|C|C]; cbv zeta.
  - destruct (Z.even k) eqn:Ev.
    + split; [nia|]. split; intros; [exact Ev|exfalso; nia].
    + split; [nia|]. split; intros; [exfalso; nia|].
      rewrite Z.even_add, Ev. reflexivity.
  - split; [nia|]. split; intros; exfalso; nia.
  - split; [nia|]. split; intros; exfalso; nia.
Qed.

Lemma round_half_even_mono n1 d1 n2 d2 :
  0 < d1 -> 0 < d2 -> n1 * d2 <= n2 * d1 ->
  round_half_even n1 d1 <= round_half_even n2 d2.
Proof.
  intros H1 H2 H.
  destruct (round_half_even_spec n1 d1 H1) as ([L1 U1] & Eu1 & El1).
  destruct (round_half_even_spec n2 d2 H2) as ([L2 U2] & Eu2 & El2).
  set (q1 := round_half_even n1 d1) in *.
  set (q2 := round_half_even n2 d2) in *.
  destruct (Z_le_gt_dec q1 q2) as [|G]; [assumption|exfalso].
  assert (A : (2 * q1 - 1) * (d1 * d2) <= (2 * q2 + 1) * (d1 * d2)) by nia.
  assert (Q : q1 = q2 + 1) by nia.
  assert (E1 : 2 * n1 = (2 * q1 - 1) * d1) by nia.
  assert (E2 : 2 * n2 = (2 * q2 + 1) * d2) by nia.
  specialize (El1 E1). specialize (Eu2 E2).
  rewrite Q, Z.even_add, Eu2 in El1. discriminate.
Qed.

Lemma round_half_even_exact z d : 0 < d -> round_half_even (z * d) d = z.
Proof.
  intros Hd. unfold round_half_even.
  rewrite Z.div_mul, Z.mod_mul by lia.
  destruct (Z.compare_spec (2 * 0) d); try lia.
Qed.

Lemma div_le_cross a b c d :
  0 < b -> 0 < d -> a * d <= c * b -> a / b <= c / d.
Proof.
  intros Hb Hd H. apply Z.div_le_lower_bound; [assumption|].
  pose proof (Z.mul_div_le a b Hb). nia.
Qed.

Lemma ulp_exp_nonneg x : 0 <= ulp_exp x.
Proof.
  unfold ulp_exp, prec. destruct (Z.ltb_spec x (2 ^ 53)); [lia|].
  assert (53 <= Z.log2 x) by (apply Z.log2_le_pow2; lia). lia.
Qed.

Lemma ulp_exp_upper x : 0 <= x -> x < 2 ^ (53 + ulp_exp x).
Proof.
  intros Hx. unfold ulp_exp, prec. destruct (Z.ltb_spec x (2 ^ 53)).
  - rewrite Z.add_0_r. assumption.
  - assert (0 < x) by lia.
    replace (53 + (Z.log2 x - (53 - 1))) with (Z.succ (Z.log2 x)) by lia.
    apply Z.log2_spec. assumption.
Qed.

Lemma ulp_exp_lower x : 0 < ulp_exp x -> 2 ^ (52 + ulp_exp x) <= x.
Proof.
  unfold ulp_exp, prec. destruct (Z.ltb_spec x (2 ^ 53)); [lia|]. intros _.
  replace (52 + (Z.log2 x - (53 - 1))) with (Z.log2 x) by lia.
  apply Z.log2_spec. lia.
Qed.

Lemma ulp_exp_mono x1 x2 : 0 <= x1 <= x2 -> ulp_exp x1 <= ulp_exp x2.
Proof.
  intros H. pose proof (ulp_exp_nonneg x2).
  unfold ulp_exp, prec in *.
  destruct (Z.ltb_spec x1 (2 ^ 53)); [assumption|].
  destruct (Z.ltb_spec x2 (2 ^ 53)); [lia|].
  pose proof (Z.log2_le_mono x1 x2). lia.
Qed.

(** The significand chosen by [round_scaled] fits the format. *)
Lemma round_scaled_significand num den :
  0 <= num -> 0 < den ->
  let j := ulp_exp (num * 2 ^ emin / den) in
  let m := round_half_even (num * 2 ^ emin) (den * 2 ^ j) in
  0 <= m <= 2 ^ 53 /\ (0 < j -> 2 ^ 52 <= m).
Proof.
  intros Hn Hd j m.
  assert (Hx : 0 <= num * 2 ^ emin) by (apply Z.mul_nonneg_nonneg; [lia|apply Z.pow_nonneg; lia]).
  set (x := num * 2 ^ emin) in *.
  assert (Hfl : 0 <= x / den) by (apply Z.div_pos; lia).
  pose proof (ulp_exp_nonneg (x / den)) as Hj. fold j in Hj.
  assert (Hp : 0 < 2 ^ j) by (apply Z.pow_pos_nonneg; lia).
  assert (HD : 0 < den * 2 ^ j) by nia.
  split; [split|].
  - apply Z.le_trans with (round_half_even (0 * 1) 1);
      [rewrite round_half_even_exact; lia|].
    apply round_half_even_mono; lia.
  - apply Z.le_trans with (round_half_even (2 ^ 53 * 1) 1);
      [|rewrite round_half_even_exact; lia].
    apply round_half_even_mono; try lia.
    pose proof (ulp_exp_upper (x / den) Hfl) as U. fold j in U.
    rewrite Z.pow_add_r in U by lia.
    assert (x < den * (2 ^ 53 * 2 ^ j)).
    { destruct (Z_lt_ge_dec x (den * (2 ^ 53 * 2 ^ j))); [assumption|].
      assert (2 ^ 53 * 2 ^ j <= x / den) by (apply Z.div_le_lower_bound; lia). lia. }
    lia.
  - intros Hj0.
    apply Z.le_trans with (round_half_even (2 ^ 52 * 1) 1);
      [rewrite round_half_even_exact; lia|].
    apply round_half_even_mono; try lia.
    pose proof (ulp_exp_lower (x / den) Hj0) as L. fold j in L.
    rewrite Z.pow_add_r in L by lia.
    pose proof (Z.mul_div_le x den Hd). nia.
Qed.

Lemma round_scaled_unfold num den :
  0 <= num ->
  round_scaled num den =
  round_half_even (num * 2 ^ emin)
    (den * 2 ^ ulp_exp (num * 2 ^ emin / den))
  * 2 ^ ulp_exp (num * 2 ^ emin / den).
Proof.
  intros Hn. unfold round_scaled.
  rewrite Z.abs_eq; [reflexivity|].
  apply Z.mul_nonneg_nonneg; [lia|apply Z.pow_nonneg; lia].
Qed.

Lemma round_scaled_nonneg num den :
  0 <= num -> 0 < den -> 0 <= round_scaled num den.
Proof.
  intros Hn Hd. rewrite round_scaled_unfold by assumption.
  destruct (round_scaled_significand num den Hn Hd) as [[Hm _] _].
  apply Z.mul_nonneg_nonneg; [assumption|apply Z.pow_nonneg; lia].
Qed.

Lemma round_scaled_mono n1 d1 n2 d2 :
  0 <= n1 -> 0 < d1 -> 0 < d2 -> n1 * d2 <= n2 * d1 ->
  round_scaled n1 d1 <= round_scaled n2 d2.
Proof.
  intros Hn1 Hd1 Hd2 H.
  assert (Hn2 : 0 <= n2) by nia.
  rewrite !round_scaled_unfold by assumption.
  destruct (round_scaled_significand n1 d1 Hn1 Hd1) as [[L1 U1] _].
  destruct (round_scaled_significand n2 d2 Hn2 Hd2) as [[L2 _] B2].
  assert (HS : 0 < 2 ^ emin) by (apply Z.pow_pos_nonneg; unfold emin; lia).
  set (x1 := n1 * 2 ^ emin) in *. set (x2 := n2 * 2 ^ emin) in *.
  assert (Hx : x1 * d2 <= x2 * d1) by (unfold x1, x2; nia).
  assert (Hx1 : 0 <= x1) by (unfold x1; nia).
  assert (Hfl : 0 <= x1 / d1 <= x2 / d2).
  { split; [apply Z.div_pos; lia|apply div_le_cross; assumption]. }
  pose proof (ulp_exp_mono _ _ Hfl) as Hj.
  pose proof (ulp_exp_nonneg (x1 / d1)) as Hj1.
  set (j1 := ulp_exp (x1 / d1)) in *. set (j2 := ulp_exp (x2 / d2)) in *.
  assert (P1 : 0 < 2 ^ j1) by (apply Z.pow_pos_nonneg; lia).
  assert (P2 : 0 < 2 ^ j2) by (apply Z.pow_pos_nonneg; lia).
  destruct (Z.eq_dec j1 j2) as [E|NE].
  - rewrite <- E in *.
    apply Z.mul_le_mono_nonneg_r; [lia|].
    apply round_half_even_mono; nia.
  - assert (Hlt : j1 + 1 <= j2) by lia.
    specialize (B2 ltac:(lia)).
    set (m1 := round_half_even x1 (d1 * 2 ^ j1)) in *.
    set (m2 := round_half_even x2 (d2 * 2 ^ j2)) in *.
    assert (m1 * 2 ^ j1 <= 2 ^ 53 * 2 ^ j1) by nia.
    assert (2 ^ 52 * 2 ^ j2 <= m2 * 2 ^ j2) by nia.
    assert (2 ^ 53 * 2 ^ j1 <= 2 ^ 52 * 2 ^ j2).
    { rewrite <- !Z.pow_add_r by lia. apply Z.pow_le_mono_r; lia. }
    lia.
Qed.

Lemma round_scaled_finite num den :
  0 <= num -> 0 < den ->
  round_scaled num den < huge -> round_scaled num den <= max_finite.
Proof.
  intros Hn Hd. rewrite round_scaled_unfold by assumption.
  destruct (round_scaled_significand num den Hn Hd) as [[L U] B].
  pose proof (ulp_exp_nonneg (num * 2 ^ emin / den)) as Hj.
  set (j := ulp_exp (num * 2 ^ emin / den)) in *.
  set (m := round_half_even (num * 2 ^ emin) (den * 2 ^ j)) in *.
  unfold huge, max_finite, emin. intros Hlt.
  assert (P : 0 < 2 ^ j) by (apply Z.pow_pos_nonneg; lia).
  destruct (Z_le_gt_dec j 2045) as [Hj'|Hj'].
  - destruct (Z.eq_dec m (2 ^ 53)) as [E|NE].
    + rewrite E in *. rewrite <- Z.pow_add_r in Hlt by lia.
      apply Z.pow_lt_mono_r_iff in Hlt; [|lia|lia].
      apply Z.le_trans with (2 ^ 2097).
      * rewrite <- Z.pow_add_r by lia. apply Z.pow_le_mono_r; lia.
      * vm_compute. discriminate.
    + assert (2 ^ j <= 2 ^ 2045) by (apply Z.pow_le_mono_r; lia).
      change (971 + 1074) with 2045. nia.
  - exfalso. specialize (B ltac:(lia)).
    assert (2 ^ 2046 <= 2 ^ j) by (apply Z.pow_le_mono_r; lia).
    assert (2 ^ 52 * 2 ^ 2046 <= m * 2 ^ j) by nia.
    change (1024 + 1074) with (52 + 2046) in Hlt.
    rewrite Z.pow_add_r in Hlt by lia. lia.
Qed.

Lemma of_scaled_mono n1 n2 :
  - huge < n1 -> n1 <= n2 -> le (of_scaled n1) (of_scaled n2).
Proof.
  intros Hl H. unfold le, of_scaled.
  destruct (Z.leb_spec n1 (- huge)); [lia|].
  destruct (Z.leb_spec n2 (- huge)); [lia|].
  destruct (Z.leb_spec huge n1), (Z.leb_spec huge n2);
    try reflexivity; try lia.
  simpl. apply Z.leb_le. assumption.
Qed.

Lemma huge_pos : 0 < huge.
Proof. unfold huge. apply Z.pow_pos_nonneg; unfold emin; lia. Qed.

Lemma round_ratio_mono n1 d1 n2 d2 :
  0 <= n1 -> 0 < d1 -> 0 < d2 -> n1 * d2 <= n2 * d1 ->
  le (round_ratio n1 d1) (round_ratio n2 d2).
Proof.
  intros Hn Hd1 Hd2 H. unfold round_ratio.
  pose proof huge_pos. pose proof (round_scaled_nonneg n1 d1 Hn Hd1).
  apply of_scaled_mono; [lia|].
  apply round_scaled_mono; assumption.
Qed.

(** A rounded non-negative rational is a non-negative double or [+inf]. *)
Lemma round_ratio_nonneg num den :
  0 <= num -> 0 < den ->
  round_ratio num den = PInf \/
  exists n, round_ratio num den = Fin n /\ 0 <= n <= max_finite.
Proof.
  intros Hn Hd. unfold round_ratio, of_scaled.
  pose proof huge_pos.
  pose proof (round_scaled_nonneg num den Hn Hd) as H0.
  pose proof (round_scaled_finite num den Hn Hd) as H1.
  destruct (Z.leb_spec huge (round_scaled num den)); [left; reflexivity|].
  destruct (Z.leb_spec (round_scaled num den) (- huge)); [lia|].
  right. eexists. split; [reflexivity|]. lia.
Qed.

Lemma round_ratio_is_nonneg num den :
  0 <= num -> 0 < den -> nonneg (round_ratio num den).
Proof.
  intros Hn Hd.
  destruct (round_ratio_nonneg num den Hn Hd) as [E|(n & E & B)];
    rewrite E; simpl; auto.
Qed.

Lemma feet_factor : exists c, of_decimal 328084 5 = Fin c /\ 0 < c.
Proof. eexists. split; [vm_compute; reflexivity|reflexivity]. Qed.

Lemma pow2_emin_pos : 0 < 2 ^ emin * 2 ^ emin.
Proof. unfold emin. apply Z.mul_pos_pos; apply Z.pow_pos_nonneg; lia. Qed.

Lemma feet_nonneg p :
  le zero p -> nonneg (mul p (of_decimal 328084 5)).
Proof.
  destruct feet_factor as (c & -> & Hc). pose proof pow2_emin_pos.
  destruct p as [n| | |]; unfold le; cbn -[Z.pow Z.mul]; try discriminate.
  - intros Hn. apply Z.leb_le in Hn.
    apply round_ratio_is_nonneg; nia.
  - intros _. destruct c; try lia. exact I.
Qed.

Lemma feet_mono p q :
  le zero p -> le p q ->
  le (mul p (of_decimal 328084 5)) (mul q (of_decimal 328084 5)).
Proof.
  destruct feet_factor as (c & -> & Hc). pose proof pow2_emin_pos.
  destruct p as [a| | |]; unfold le at 1 2; cbn -[Z.pow Z.mul];
    try discriminate.
  - destruct q as [b| | |]; try discriminate.
    + intros Ha Hb. apply Z.leb_le in Ha, Hb.
      apply round_ratio_mono; try lia.
      apply Z.mul_le_mono_nonneg_r; [lia|nia].
    + intros Ha _. apply Z.leb_le in Ha.
      assert (N : nonneg (round_ratio (a * c) (2 ^ emin * 2 ^ emin)))
        by (apply round_ratio_is_nonneg; nia).
      destruct c; try lia.
      destruct (round_ratio _ _); simpl in N; try contradiction; reflexivity.
  - destruct q; try discriminate. intros _ _.
    destruct c; try lia. reflexivity.
Qed.

Lemma round2_max :
  round_ratio (round_half_even (max_finite * 10 ^ 2) (2 ^ emin)) (10 ^ 2)
  = Fin max_finite.
Proof. vm_compute. reflexivity. Qed.

Lemma round2_nonneg x :
  nonneg x -> exists r, Py.round x 2 = Ok r /\ nonneg r.
Proof.
  destruct x as [n| | |]; cbn -[Z.pow Z.mul max_finite]; try contradiction.
  - intros Hn. change (10 ^ 2) with 100.
    assert (HS : 0 < 2 ^ emin) by (apply Z.pow_pos_nonneg; unfold emin; lia).
    assert (H0 : 0 <= round_half_even (n * 100) (2 ^ emin)).
    { apply Z.le_trans with (round_half_even (0 * 1) 1);
        [rewrite round_half_even_exact; lia|].
      apply round_half_even_mono; lia. }
    assert (M : le (round_ratio (round_half_even (n * 100) (2 ^ emin)) 100)
                   (Fin max_finite)).
    { rewrite <- round2_max. change (10 ^ 2) with 100.
      apply round_ratio_mono; try lia.
      apply Z.mul_le_mono_nonneg_r; [lia|].
      apply round_half_even_mono; try lia.
      apply Z.mul_le_mono_nonneg_r; lia. }
    pose proof (round_ratio_is_nonneg _ 100 H0 ltac:(lia)) as N.
    destruct (round_ratio _ _) as [r| | |]; cbn -[max_finite] in *;
      try contradiction; try discriminate.
    exists (Fin r). split; [reflexivity|assumption].
  - intros _. exists PInf. split; reflexivity.
Qed.

Lemma round2_mono x y :
  nonneg x -> nonneg y -> le x y ->
  exists rx ry, Py.round x 2 = Ok rx /\ Py.round y 2 = Ok ry /\ le rx ry.
Proof.
  intros Nx Ny L.
  destruct (round2_nonneg x Nx) as (rx & Ex & Nrx).
  destruct (round2_nonneg y Ny) as (ry & Ey & Nry).
  exists rx, ry. split; [assumption|]. split; [assumption|].
  destruct x as [a| | |], y as [b| | |]; cbn -[max_finite] in Nx, Ny;
    try contradiction; unfold le in L; simpl in L; try discriminate.
  - apply Z.leb_le in L. cbn -[Z.pow Z.mul] in Ex, Ey.
    change (10 ^ 2) with 100 in Ex, Ey.
    assert (HS : 0 < 2 ^ emin) by (apply Z.pow_pos_nonneg; unfold emin; lia).
    assert (H0 : 0 <= round_half_even (a * 100) (2 ^ emin)).
    { apply Z.le_trans with (round_half_even (0 * 1) 1);
        [rewrite round_half_even_exact; lia|].
      apply round_half_even_mono; lia. }
    assert (M : le (round_ratio (round_half_even (a * 100) (2 ^ emin)) 100)
                   (round_ratio (round_half_even (b * 100) (2 ^ emin)) 100)).
    { apply round_ratio_mono; try lia.
      apply Z.mul_le_mono_nonneg_r; [lia|].
      apply round_half_even_mono; try lia.
      apply Z.mul_le_mono_nonneg_r; lia. }
    destruct (round_ratio (round_half_even (a * 100) _) _);
      destruct (round_ratio (round_half_even (b * 100) _) _);
      simpl in Ex, Ey; try discriminate; inversion Ex; inversion Ey; subst;
      assumption.
  - simpl in Ey. inversion Ey; subst.
    destruct rx; simpl in Nrx; try contradiction; reflexivity.
  - simpl in Ex, Ey. inversion Ex; inversion Ey; subst. reflexivity.
Qed.

End B64Facts.

(** ** The distance estimator *)

Section EstimatorFacts.
Import B64 B64Facts Py.

Variable libm_pow10 : Z -> float.

Lemma normalize_nonpos rssi : rssi <= 0 -> normalize rssi = rssi.
Proof. intros H. unfold normalize. destruct (Z.ltb_spec 0 rssi); lia. Qed.

Lemma normalize_pos rssi : 0 < rssi -> normalize rssi = rssi - 100.
Proof. intros H. unfold normalize. destruct (Z.ltb_spec 0 rssi); lia. Qed.

Lemma num_le_zero_nonneg d : nonneg d -> num_le (PyInt 0) (PyFloat d).
Proof.
  destruct d; simpl; intros H; try contradiction; try reflexivity.
  unfold num_le. cbn -[Z.pow]. apply Z.leb_le. lia.
Qed.

(** Ordered powers give ordered estimates. *)
Lemma calculate_distance_mono s1 s2 p1 p2 :
  distance_meters libm_pow10 (normalize s1) = Ok p1 ->
  distance_meters libm_pow10 (normalize s2) = Ok p2 ->
  le zero p2 -> le p2 p1 ->
  num_le (calculate_distance libm_pow10 s2)
         (calculate_distance libm_pow10 s1).
Proof.
  intros E1 E2 Z2 L.
  assert (Z1 : le zero p1).
  { destruct p2, p1; unfold le in *; simpl in *; try discriminate;
      try reflexivity.
    apply Z.leb_le in Z2, L. apply Z.leb_le. lia. }
  unfold calculate_distance, distance_formula. rewrite E1, E2. cbn [bind].
  destruct (round2_mono _ _ (feet_nonneg p2 Z2) (feet_nonneg p1 Z1)
              (feet_mono p2 p1 Z2 L)) as (r2 & r1 & R2 & R1 & Hr).
  rewrite R1, R2. exact Hr.
Qed.

Lemma pow10_accurate_le k1 k2 p1 p2 :
  k2 < k1 ->
  pow10_accurate k1 p1 -> pow10_accurate k2 p2 ->
  le zero p2 /\ le p2 p1.
Proof.
  intros Hk.
  destruct p1 as [n1| | |], p2 as [n2| | |]; cbn [pow10_accurate];
    try contradiction.
  intros (N1 & L1 & _) (N2 & _ & U2).
  unfold le. cbn [leb zero]. rewrite !Z.leb_le. split; [assumption|].
  assert (HT : 0 < (2 ^ emin) ^ 20).
  { apply Z.pow_pos_nonneg; [|lia].
    apply Z.pow_pos_nonneg; unfold emin; lia. }
  remember ((2 ^ emin) ^ 20) as T eqn:ET. clear ET.
  set (a1 := Z.max k1 0) in *. set (b1 := Z.max (- k1) 0) in *.
  set (a2 := Z.max k2 0) in *. set (b2 := Z.max (- k2) 0) in *.
  assert (Ha1 : 0 <= a1) by lia. assert (Hb1 : 0 <= b1) by lia.
  assert (Ha2 : 0 <= a2) by lia. assert (Hb2 : 0 <= b2) by lia.
  assert (Hab : a2 + b1 + 1 <= a1 + b2) by lia.
  assert (P : forall e, 0 <= e -> 0 < 10 ^ e)
    by (intros; apply Z.pow_pos_nonneg; lia).
  pose proof (P a1 Ha1). pose proof (P b1 Hb1).
  pose proof (P a2 Ha2). pose proof (P b2 Hb2).
  assert (HK : 10 * (10 ^ a2 * 10 ^ b1) <= 10 ^ a1 * 10 ^ b2).
  { rewrite <- !Z.pow_add_r by lia.
    replace (a1 + b2) with (a2 + b1 + (a1 + b2 - (a2 + b1))) by lia.
    rewrite (Z.pow_add_r 10 (a2 + b1)) by lia.
    assert (10 ^ 1 <= 10 ^ (a1 + b2 - (a2 + b1)))
      by (apply Z.pow_le_mono_r; lia).
    change (10 ^ 1) with 10 in *.
    pose proof (P (a2 + b1) ltac:(lia)). nia. }
  (* both bounds, scaled to the common factor [10^b1 * 10^b2] *)
  assert (L1' : 999 * (10 ^ a1 * 10 ^ b2 * T)
                <= 1000 * (n1 ^ 20 * (10 ^ b1 * 10 ^ b2))).
  { apply Z.mul_le_mono_nonneg_r with (p := 10 ^ b2) in L1; [|lia].
    replace (999 * (10 ^ a1 * 10 ^ b2 * T))
      with (999 * (10 ^ a1 * T) * 10 ^ b2) by ring.
    replace (1000 * (n1 ^ 20 * (10 ^ b1 * 10 ^ b2)))
      with (1000 * (n1 ^ 20 * 10 ^ b1) * 10 ^ b2) by ring.
    exact L1. }
  assert (U2' : 1000 * (n2 ^ 20 * (10 ^ b1 * 10 ^ b2))
                <= 1001 * (10 ^ a2 * 10 ^ b1 * T)).
  { apply Z.mul_le_mono_nonneg_r with (p := 10 ^ b1) in U2; [|lia].
    replace (1000 * (n2 ^ 20 * (10 ^ b1 * 10 ^ b2)))
      with (1000 * (n2 ^ 20 * 10 ^ b2) * 10 ^ b1) by ring.
    replace (1001 * (10 ^ a2 * 10 ^ b1 * T))
      with (1001 * (10 ^ a2 * T) * 10 ^ b1) by ring.
    exact U2. }
  assert (HB : 10 * (10 ^ a2 * 10 ^ b1 * T) <= 10 ^ a1 * 10 ^ b2 * T).
  { rewrite Z.mul_assoc. apply Z.mul_le_mono_nonneg_r; lia. }
  assert (HY : 0 < 10 ^ a2 * 10 ^ b1 * T)
    by (repeat apply Z.mul_pos_pos; assumption).
  assert (HX : 0 < 10 ^ b1 * 10 ^ b2) by (apply Z.mul_pos_pos; assumption).
  assert (HP : n2 ^ 20 * (10 ^ b1 * 10 ^ b2) <= n1 ^ 20 * (10 ^ b1 * 10 ^ b2)).
  { clear - L1' U2' HB HY.
    generalize dependent (10 ^ a2 * 10 ^ b1 * T).
    generalize dependent (10 ^ a1 * 10 ^ b2 * T).
    generalize (n1 ^ 20 * (10 ^ b1 * 10 ^ b2)) (n2 ^ 20 * (10 ^ b1 * 10 ^ b2)).
    intros; lia. }
  apply Z.mul_le_mono_pos_r in HP; [|assumption].
  destruct (Z_le_gt_dec n2 n1) as [|G]; [assumption|exfalso].
  assert (n1 ^ 20 < n2 ^ 20) by (apply Z.pow_lt_mono_l; lia).
  lia.
Qed.

End EstimatorFacts.
Section EstimatorTheorems.
Import B64 B64Facts Py.

Lemma distance_meters_reference libm_pow10 :
  distance_meters libm_pow10 REFERENCE_RSSI = Ok one.
Proof. vm_compute. reflexivity. Qed.

Lemma pow10_accurate_one : pow10_accurate 0 one.
Proof.
  unfold one. cbn [pow10_accurate].
  assert (0 < 2 ^ emin) by (apply Z.pow_pos_nonneg; unfold emin; lia).
  assert (0 < (2 ^ emin) ^ 20) by (apply Z.pow_pos_nonneg; lia).
  change (Z.max 0 0) with 0. change (Z.max (- 0) 0) with 0.
  change (10 ^ 0) with 1. lia.
Qed.

Lemma antitone_step libm_pow10 s1 s2 p1 p2 :
  s1 <= s2 -> s2 <= -50 ->
  distance_meters libm_pow10 s1 = Ok p1 ->
  distance_meters libm_pow10 s2 = Ok p2 ->
  pow10_accurate (REFERENCE_RSSI - s1) p1 ->
  pow10_accurate (REFERENCE_RSSI - s2) p2 ->
  num_le (calculate_distance libm_pow10 s2) (calculate_distance libm_pow10 s1).
Proof.
  intros H12 H2 E1 E2 A1 A2.
  destruct (Z.eq_dec s1 s2) as [->|NE].
  - rewrite E1 in E2. inversion E2; subst p2.
    apply (calculate_distance_mono libm_pow10 s2 s2 p1 p1);
      rewrite ?normalize_nonpos by lia; try assumption;
      destruct p1; cbn [pow10_accurate] in A1; try contradiction;
      unfold le; cbn [leb zero]; apply Z.leb_le; lia.
  - unfold REFERENCE_RSSI in *.
    destruct (pow10_accurate_le (-50 - s1) (-50 - s2) p1 p2) as [Z2 L];
      try assumption; try lia.
    apply (calculate_distance_mono libm_pow10 s1 s2 p1 p2);
      rewrite ?normalize_nonpos by lia; assumption.
Qed.

(** C1, as the code has it: the bound fails where the power overflows, since
    the handler then answers 0; with the reference library
    [calculate_distance (-10000) = 0 < calculate_distance (-50)]. *)
Lemma calculate_distance_overflow_breaks_antitone :
  ~ (forall s, s <= -50 ->
       num_le (calculate_distance Libm.pow10 (-50))
              (calculate_distance Libm.pow10 s)).
Proof.
  intros H. specialize (H (-10000) ltac:(lia)).
  assert (E : forall a b,
             a = calculate_distance Libm.pow10 (-50) ->
             b = calculate_distance Libm.pow10 (-10000) ->
             num_le a b -> False).
  { intros a b -> ->. vm_compute. discriminate. }
  exact (E _ _ eq_refl eq_refl H).
Qed.

(** C1 (amended): for integers [s1 <= s2 <= -50] at which the power
    operation returns (no overflow) a value within 5e-5 of the true power,
    the estimates are ordered [estimate (-50) <= estimate s2 <= estimate s1],
    after the rounding to two decimals. *)
Theorem calculate_distance_antitone libm_pow10 s1 s2 p1 p2 :
  s1 <= s2 -> s2 <= -50 ->
  distance_meters libm_pow10 s1 = Ok p1 ->
  distance_meters libm_pow10 s2 = Ok p2 ->
  pow10_accurate (REFERENCE_RSSI - s1) p1 ->
  pow10_accurate (REFERENCE_RSSI - s2) p2 ->
  num_le (calculate_distance libm_pow10 (-50))
         (calculate_distance libm_pow10 s2) /\
  num_le (calculate_distance libm_pow10 s2)
         (calculate_distance libm_pow10 s1).
Proof.
  intros H12 H2 E1 E2 A1 A2. split.
  - apply (antitone_step libm_pow10 s2 (-50) p2 one); try lia; try assumption.
    + apply distance_meters_reference.
    + apply pow10_accurate_one.
  - apply (antitone_step libm_pow10 s1 s2 p1 p2); assumption.
Qed.

Lemma calculate_distance_antitone_witness :
  num_le (calculate_distance Libm.pow10 (-50))
         (calculate_distance Libm.pow10 (-60)) /\
  num_le (calculate_distance Libm.pow10 (-60))
         (calculate_distance Libm.pow10 (-70)).
Proof.
  eapply (calculate_distance_antitone Libm.pow10 (-70) (-60)).
  - lia.
  - lia.
  - vm_compute. reflexivity.
  - vm_compute. reflexivity.
  - cbn [pow10_accurate]. repeat split; apply Z.leb_le; vm_compute; reflexivity.
  - cbn [pow10_accurate]. repeat split; apply Z.leb_le; vm_compute; reflexivity.
Defined.

(** C2: at the reference reading -50 the power is exactly 1, and
    1 * 3.28084 rounded to two decimals is the double 3.28, whatever the
    library's [pow] is. *)
Theorem calculate_distance_reference_point libm_pow10 :
  distance_meters libm_pow10 REFERENCE_RSSI = Ok one /\
  round (mul one (of_decimal 328084 5)) 2 = Ok (of_decimal 328 2) /\
  calculate_distance libm_pow10 (-50) = PyFloat (of_decimal 328 2).
Proof.
  split; [|split]; vm_compute; reflexivity.
Qed.

(** C3, as the code has it: the shift by 100 is applied once, so a reading
    above 100 is not estimated like the reading 100 below it;
    [calculate_distance 150] is 0.0 and [calculate_distance 50] is 3.28. *)
Lemma calculate_distance_double_shift :
  ~ (forall s, s > 0 ->
       calculate_distance Libm.pow10 s = calculate_distance Libm.pow10 (s - 100)).
Proof.
  intros H. specialize (H 150 ltac:(lia)).
  assert (E : forall a b,
             a = calculate_distance Libm.pow10 150 ->
             b = calculate_distance Libm.pow10 (150 - 100) ->
             a = b -> False).
  { intros a b -> ->. vm_compute. discriminate. }
  exact (E _ _ eq_refl eq_refl H).
Qed.

(** C3 (amended): a positive reading is estimated by the formula at the
    reading minus 100; for [0 < s <= 100] that is the estimate of
    [s - 100], in particular [estimate 30 = estimate (-70)]; a reading
    [s <= 0] enters the formula unchanged. *)
Theorem calculate_distance_normalization libm_pow10 s :
  (0 < s ->
   calculate_distance libm_pow10 s =
   match distance_formula libm_pow10 (s - 100) with
   | Ok d => PyFloat d
   | Raise _ => PyInt 0
   end) /\
  (0 < s <= 100 ->
   calculate_distance libm_pow10 s = calculate_distance libm_pow10 (s - 100)) /\
  (s <= 0 ->
   calculate_distance libm_pow10 s =
   match distance_formula libm_pow10 s with
   | Ok d => PyFloat d
   | Raise _ => PyInt 0
   end) /\
  calculate_distance libm_pow10 30 = calculate_distance libm_pow10 (-70).
Proof.
  unfold calculate_distance. split; [|split; [|split]].
  - intros H. rewrite normalize_pos by lia. reflexivity.
  - intros H. rewrite (normalize_pos s), (normalize_nonpos (s - 100)) by lia.
    reflexivity.
  - intros H. rewrite normalize_nonpos by lia. reflexivity.
  - change (normalize 30) with (-70). change (normalize (-70)) with (-70).
    reflexivity.
Qed.

Lemma calculate_distance_normalization_witness :
  calculate_distance Libm.pow10 30 = calculate_distance Libm.pow10 (30 - 100).
Proof.
  apply (proj1 (proj2 (calculate_distance_normalization Libm.pow10 30))). lia.
Defined.

Lemma float_pow10_nonzero libm_pow10 n :
  n <> 0 ->
  float_pow10 libm_pow10 (Fin n) =
  if is_inf (libm_pow10 n) then Raise OverflowError else Ok (libm_pow10 n).
Proof. destruct n; [congruence|reflexivity|reflexivity]. Qed.

Lemma float_pow10_finite libm_pow10 n p :
  float_pow10 libm_pow10 (Fin n) = Ok p ->
  (n = 0 /\ p = one) \/ (n <> 0 /\ p = libm_pow10 n).
Proof.
  destruct (Z.eq_dec n 0) as [->|N].
  - cbn [float_pow10]. intros H. inversion H. auto.
  - rewrite float_pow10_nonzero by assumption.
    destruct (is_inf (libm_pow10 n)); [discriminate|].
    intros H. inversion H. auto.
Qed.

Lemma int_truediv_finite a b x :
  int_truediv a b = Ok x -> exists n, x = Fin n.
Proof.
  unfold int_truediv. destruct (b =? 0); [discriminate|].
  destruct (0 <? b); unfold round_ratio, of_scaled;
    (destruct (huge <=? _); [cbn [is_inf]; discriminate|]);
    (destruct (_ <=? - huge); [cbn [is_inf]; discriminate|]);
    cbn [is_inf]; intros H; inversion H; eauto.
Qed.

Lemma range_checked_finite (r d : float) :
  (if is_inf r then Raise OverflowError else Ok r) = Ok d -> d <> PInf.
Proof.
  destruct r; cbn [is_inf]; intros H; inversion H; discriminate.
Qed.

Lemma round_infinite x ndigits d :
  round x ndigits = Ok d -> (d = PInf <-> x = PInf).
Proof.
  unfold round. destruct x as [n| | |].
  - cbv zeta. intros H. pose proof (range_checked_finite _ _ H) as N.
    split; [contradiction|discriminate].
  - intros H. inversion H. tauto.
  - intros H. inversion H. split; discriminate.
  - intros H. inversion H. split; discriminate.
Qed.

(** C4, as the code has it: the product with 3.28084 can overflow where
    the power does not, and [round] returns an infinity unchanged; with the
    reference library [calculate_distance (-6210)] is [inf], neither the
    integer 0 nor a finite float. *)
Lemma calculate_distance_infinite_result :
  ~ (forall s,
       calculate_distance Libm.pow10 s = PyInt 0 \/
       exists n, calculate_distance Libm.pow10 s = PyFloat (Fin n) /\ 0 <= n).
Proof.
  intros H. specialize (H (-6210)).
  assert (V : calculate_distance Libm.pow10 (-6210) = PyFloat PInf)
    by (vm_compute; reflexivity).
  assert (E : forall a, a = PyFloat PInf ->
                a = PyInt 0 \/ (exists n, a = PyFloat (Fin n) /\ 0 <= n) ->
                False).
  { intros a -> [X|(n & X & _)]; discriminate X. }
  exact (E _ V H).
Qed.

(** C4 (amended): the estimator returns a number for every integer and
    never raises.  When the division or the power raises, the number is the
    integer 0.  Otherwise it is the product of the power
    [10 ** ((REFERENCE_RSSI - normalized) / 20)] and 3.28084 rounded to two
    decimals, which (the library's power being no negative value and no
    NaN) is at least 0, and finite unless the product overflowed to
    [inf].  With an exact power at the exponent 1 the estimate of -70 is
    32.81. *)
Theorem calculate_distance_total_nonneg libm_pow10 s :
  (forall n,
     int_truediv (REFERENCE_RSSI - normalize s) (10 * PATH_LOSS_EXPONENT)
       = Ok (Fin n) ->
     n <> 0 -> le zero (libm_pow10 n)) ->
  num_le (PyInt 0) (calculate_distance libm_pow10 s) /\
  match
    int_truediv (REFERENCE_RSSI - normalize s) (10 * PATH_LOSS_EXPONENT)
  with
  | Raise _ => calculate_distance libm_pow10 s = PyInt 0
  | Ok exponent =>
      match float_pow10 libm_pow10 exponent with
      | Raise _ => calculate_distance libm_pow10 s = PyInt 0
      | Ok p =>
          exists d,
            round (mul p (of_decimal 328084 5)) 2 = Ok d /\
            calculate_distance libm_pow10 s = PyFloat d /\
            nonneg d /\
            (d = PInf <-> mul p (of_decimal 328084 5) = PInf)
      end
  end /\
  (libm_pow10 (2 ^ emin) = of_Z 10 ->
   calculate_distance libm_pow10 (-70) = PyFloat (of_decimal 3281 2)).
Proof.
  intros Hp.
  assert (M : match
      int_truediv (REFERENCE_RSSI - normalize s) (10 * PATH_LOSS_EXPONENT)
    with
    | Raise _ => calculate_distance libm_pow10 s = PyInt 0
    | Ok exponent =>
        match float_pow10 libm_pow10 exponent with
        | Raise _ => calculate_distance libm_pow10 s = PyInt 0
        | Ok p =>
            exists d,
              round (mul p (of_decimal 328084 5)) 2 = Ok d /\
              calculate_distance libm_pow10 s = PyFloat d /\
              nonneg d /\
              (d = PInf <-> mul p (of_decimal 328084 5) = PInf)
        end
    end).
  { unfold calculate_distance, distance_formula, distance_meters.
    destruct (int_truediv _ _) as [exponent|e] eqn:E; cbn [bind];
      [|reflexivity].
    destruct (float_pow10 libm_pow10 exponent) as [p|e] eqn:P; cbn [bind];
      [|reflexivity].
    assert (Zp : le zero p).
    { destruct (int_truediv_finite _ _ _ E) as (n & ->).
      destruct (float_pow10_finite _ _ _ P) as [[_ ->]|[N ->]].
      - unfold le, zero, one. cbn [leb]. apply Z.leb_le.
        apply Z.lt_le_incl, Z.pow_pos_nonneg; unfold emin; lia.
      - apply (Hp n eq_refl N). }
    destruct (round2_nonneg _ (feet_nonneg p Zp)) as (d & Ed & Nd).
    exists d. rewrite Ed. split; [reflexivity|]. split; [reflexivity|].
    split; [assumption|]. apply (round_infinite _ 2). assumption. }
  split; [|split; [exact M|]].
  - destruct (int_truediv _ _) as [exponent|e]; [|rewrite M; reflexivity].
    destruct (float_pow10 libm_pow10 exponent) as [p|e];
      [|rewrite M; reflexivity].
    destruct M as (d & _ & -> & Nd & _).
    apply num_le_zero_nonneg. assumption.
  - intros H10.
    assert (E : int_truediv (REFERENCE_RSSI - normalize (-70))
                  (10 * PATH_LOSS_EXPONENT) = Ok (Fin (2 ^ emin)))
      by (vm_compute; reflexivity).
    unfold calculate_distance, distance_formula, distance_meters.
    rewrite E. cbn [bind].
    rewrite float_pow10_nonzero
      by (apply Z.neq_sym, Z.lt_neq, Z.pow_pos_nonneg; unfold emin; lia).
    rewrite H10. vm_compute. reflexivity.
Qed.

Lemma calculate_distance_total_nonneg_witness :
  num_le (PyInt 0) (calculate_distance Libm.pow10 (-60)) /\
  calculate_distance Libm.pow10 (-70) = PyFloat (of_decimal 3281 2).
Proof.
  assert (T := calculate_distance_total_nonneg Libm.pow10 (-60)).
  assert (X : forall n,
             int_truediv (REFERENCE_RSSI - normalize (-60))
               (10 * PATH_LOSS_EXPONENT) = Ok (Fin n) ->
             n <> 0 -> le zero (Libm.pow10 n)).
  { intros n E _.
    assert (Y : match
                  int_truediv (REFERENCE_RSSI - normalize (-60))
                    (10 * PATH_LOSS_EXPONENT)
                with
                | Ok (Fin n) => leb zero (Libm.pow10 n)
                | _ => true
                end = true) by (vm_compute; reflexivity).
    rewrite E in Y. exact Y. }
  destruct (T X) as (A & _ & B).
  split; [exact A|]. apply B. vm_compute. reflexivity.
Defined.

End EstimatorTheorems.
(** ** Text order of timestamps and [ORDER BY] *)

Lemma ascii_compare_refl c : Ascii.compare c c = Eq.
Proof. unfold Ascii.compare. apply N.compare_refl. Qed.

Lemma string_compare_refl s : String.compare s s = Eq.
Proof.
  induction s as [|c s IH]; [reflexivity|].
  simpl. rewrite ascii_compare_refl. exact IH.
Qed.

Lemma ascii_compare_trans c1 c2 c3 r :
  Ascii.compare c1 c2 = r -> Ascii.compare c2 c3 = r -> r <> Eq ->
  Ascii.compare c1 c3 = r.
Proof.
  unfold Ascii.compare. intros H1 H2 Hr.
  destruct r; [congruence| |].
  - rewrite N.compare_lt_iff in *. lia.
  - rewrite N.compare_gt_iff in *. lia.
Qed.

Lemma string_compare_lt_trans s1 : forall s2 s3,
  String.compare s1 s2 = Lt -> String.compare s2 s3 = Lt ->
  String.compare s1 s3 = Lt.
Proof.
  induction s1 as [|c1 s1 IH]; intros [|c2 s2] [|c3 s3]; simpl;
    try discriminate; try reflexivity.
  destruct (Ascii.compare c1 c2) eqn:E12; try discriminate;
    destruct (Ascii.compare c2 c3) eqn:E23; try discriminate; intros H1 H2.
  - apply Ascii.compare_eq_iff in E12, E23. subst.
    rewrite ascii_compare_refl. eauto.
  - apply Ascii.compare_eq_iff in E12. subst. rewrite E23. reflexivity.
  - apply Ascii.compare_eq_iff in E23. subst. rewrite E12. reflexivity.
  - rewrite (ascii_compare_trans c1 c2 c3 Lt); auto. discriminate.
Qed.

Lemma string_leb_trans s1 s2 s3 :
  String.leb s1 s2 = true -> String.leb s2 s3 = true ->
  String.leb s1 s3 = true.
Proof.
  unfold String.leb.
  destruct (String.compare s1 s2) eqn:E12; try discriminate;
    destruct (String.compare s2 s3) eqn:E23; try discriminate; intros _ _.
  - apply String.compare_eq_iff in E12, E23. subst.
    rewrite string_compare_refl. reflexivity.
  - apply String.compare_eq_iff in E12. subst. rewrite E23. reflexivity.
  - apply String.compare_eq_iff in E23. subst. rewrite E12. reflexivity.
  - rewrite (string_compare_lt_trans _ _ _ E12 E23). reflexivity.
Qed.

Lemma string_leb_total s1 s2 :
  String.leb s1 s2 = false -> String.leb s2 s1 = true.
Proof.
  unfold String.leb. rewrite (String.compare_antisym s1 s2).
  destruct (String.compare s2 s1); simpl; congruence.
Qed.

Lemma insert_desc_perm r l : Permutation (insert_desc r l) (r :: l).
Proof.
  induction l as [|x l IH]; simpl; [reflexivity|].
  destruct (String.leb (timestamp x) (timestamp r)); [reflexivity|].
  rewrite IH. apply perm_swap.
Qed.

Lemma order_by_timestamp_desc_perm l :
  Permutation (order_by_timestamp_desc l) l.
Proof.
  induction l as [|r l IH]; simpl; [reflexivity|].
  unfold order_by_timestamp_desc in *. simpl.
  rewrite insert_desc_perm. constructor. exact IH.
Qed.

Lemma insert_desc_sorted r l :
  StronglySorted newer_first l -> StronglySorted newer_first (insert_desc r l).
Proof.
  induction 1 as [|x l Hs IH Hx]; simpl.
  - repeat constructor.
  - destruct (String.leb (timestamp x) (timestamp r)) eqn:E.
    + constructor; [constructor; assumption|].
      constructor; [exact E|].
      rewrite Forall_forall in *. intros y Hy. unfold newer_first in *.
      apply string_leb_trans with (timestamp x); auto.
    + constructor; [assumption|].
      rewrite Forall_forall in *. intros y Hy.
      apply (Permutation_in _ (insert_desc_perm r l)) in Hy.
      destruct Hy as [<-|Hy]; [|auto].
      apply string_leb_total. exact E.
Qed.

Lemma order_by_timestamp_desc_sorted l :
  StronglySorted newer_first (order_by_timestamp_desc l).
Proof.
  induction l as [|r l IH]; simpl; [constructor|].
  apply insert_desc_sorted. exact IH.
Qed.

(** ** Timestamps: text order is chronological order *)

Lemma digit_char_code n :
  N_of_ascii (digit_char n) = N.of_nat (48 + Z.to_nat (n mod 10)).
Proof.
  unfold digit_char, ascii_of_nat.
  pose proof (Z.mod_pos_bound n 10 ltac:(lia)) as B.
  apply N_ascii_embedding. lia.
Qed.

Lemma digit_char_compare m n :
  Ascii.compare (digit_char m) (digit_char n) = (m mod 10 ?= n mod 10).
Proof.
  unfold Ascii.compare. rewrite !digit_char_code.
  pose proof (Z.mod_pos_bound m 10 ltac:(lia)).
  pose proof (Z.mod_pos_bound n 10 ltac:(lia)).
  destruct (Z.compare_spec (m mod 10) (n mod 10));
    [apply N.compare_eq_iff|apply N.compare_lt_iff|apply N.compare_gt_iff]; lia.
Qed.

Lemma pad2_compare m n s s' :
  0 <= m < 100 -> 0 <= n < 100 ->
  String.compare (pad2 m s) (pad2 n s') =
  match m ?= n with
  | Eq => String.compare s s'
  | c => c
  end.
Proof.
  intros Hm Hn. unfold pad2. cbn [String.compare]. rewrite !digit_char_compare.
  pose proof (Z.div_mod m 10 ltac:(lia)). pose proof (Z.div_mod n 10 ltac:(lia)).
  pose proof (Z.mod_pos_bound m 10 ltac:(lia)).
  pose proof (Z.mod_pos_bound n 10 ltac:(lia)).
  assert (0 <= m / 10 < 10) by (split; [apply Z.div_pos|apply Z.div_lt_upper_bound]; lia).
  assert (0 <= n / 10 < 10) by (split; [apply Z.div_pos|apply Z.div_lt_upper_bound]; lia).
  rewrite (Z.mod_small (m / 10)), (Z.mod_small (n / 10)) by lia.
  destruct (Z.compare_spec (m / 10) (n / 10));
    destruct (Z.compare_spec (m mod 10) (n mod 10));
    destruct (Z.compare_spec m n); try lia; reflexivity.
Qed.

Lemma pad4_pad2 n s : pad4 n s = pad2 (n / 100) (String (digit_char (n / 10)) (String (digit_char n) s)).
Proof.
  unfold pad4, pad2. rewrite Z.div_div by lia. reflexivity.
Qed.

Lemma pad4_compare m n s s' :
  0 <= m < 10000 -> 0 <= n < 10000 ->
  String.compare (pad4 m s) (pad4 n s') =
  match m ?= n with
  | Eq => String.compare s s'
  | c => c
  end.
Proof.
  intros Hm Hn. rewrite !pad4_pad2.
  assert (Hm' : 0 <= m / 100 < 100) by (split; [apply Z.div_pos|apply Z.div_lt_upper_bound]; lia).
  assert (Hn' : 0 <= n / 100 < 100) by (split; [apply Z.div_pos|apply Z.div_lt_upper_bound]; lia).
  rewrite pad2_compare by assumption.
  pose proof (Z.div_mod m 100 ltac:(lia)). pose proof (Z.div_mod n 100 ltac:(lia)).
  pose proof (Z.mod_pos_bound m 100 ltac:(lia)).
  pose proof (Z.mod_pos_bound n 100 ltac:(lia)).
  assert (E : forall k, String (digit_char (k / 10)) (String (digit_char k) s) = pad2 (k mod 100) s).
  { intros k. unfold pad2, digit_char. 
    replace ((k mod 100 / 10) mod 10) with ((k / 10) mod 10).
    2:{ rewrite (Z.div_mod k 100) at 1 by lia.
        replace (100 * (k / 100) + k mod 100) with (k mod 100 + (k / 100 * 10) * 10) by lia.
        rewrite Z.div_add by lia. rewrite Z.add_mod by lia.
        rewrite Z.mod_mul by lia. rewrite Z.add_0_r. rewrite Z.mod_mod by lia. reflexivity. }
    replace ((k mod 100) mod 10) with (k mod 10).
    2:{ rewrite (Z.div_mod k 100) at 1 by lia.
        replace (100 * (k / 100) + k mod 100) with (k mod 100 + (k / 100 * 10) * 10) by lia.
        rewrite Z.mod_add by lia. reflexivity. }
    reflexivity. }
  assert (E' : forall k, String (digit_char (k / 10)) (String (digit_char k) s') = pad2 (k mod 100) s').
  { intros k. unfold pad2, digit_char. 
    replace ((k mod 100 / 10) mod 10) with ((k / 10) mod 10).
    2:{ rewrite (Z.div_mod k 100) at 1 by lia.
        replace (100 * (k / 100) + k mod 100) with (k mod 100 + (k / 100 * 10) * 10) by lia.
        rewrite Z.div_add by lia. rewrite Z.add_mod by lia.
        rewrite Z.mod_mul by lia. rewrite Z.add_0_r. rewrite Z.mod_mod by lia. reflexivity. }
    replace ((k mod 100) mod 10) with (k mod 10).
    2:{ rewrite (Z.div_mod k 100) at 1 by lia.
        replace (100 * (k / 100) + k mod 100) with (k mod 100 + (k / 100 * 10) * 10) by lia.
        rewrite Z.mod_add by lia. reflexivity. }
    reflexivity. }
  rewrite E, E'. rewrite pad2_compare by lia.
  destruct (Z.compare_spec (m / 100) (n / 100));
    destruct (Z.compare_spec (m mod 100) (n mod 100));
    destruct (Z.compare_spec m n); try lia; reflexivity.
Qed.

Lemma strftime_compare a b :
  well_formed a -> well_formed b ->
  String.compare (strftime a) (strftime b) = datetime_compare a b.
Proof.
  intros (Ya & Ma & Da & Ha & Mia & Sa) (Yb & Mb & Db & Hb & Mib & Sb).
  unfold strftime, datetime_compare.
  rewrite pad4_compare by lia.
  destruct (year a ?= year b); try reflexivity.
  cbn [String.compare]. rewrite ascii_compare_refl.
  rewrite pad2_compare by lia.
  destruct (month a ?= month b); try reflexivity.
  cbn [String.compare]. rewrite ascii_compare_refl.
  rewrite pad2_compare by lia.
  destruct (day a ?= day b); try reflexivity.
  cbn [String.compare]. rewrite ascii_compare_refl.
  rewrite pad2_compare by lia.
  destruct (hour a ?= hour b); try reflexivity.
  cbn [String.compare]. rewrite ascii_compare_refl.
  rewrite pad2_compare by lia.
  destruct (minute a ?= minute b); try reflexivity.
  cbn [String.compare]. rewrite ascii_compare_refl.
  rewrite pad2_compare by lia.
  destruct (second a ?= second b); reflexivity.
Qed.

(** ** The scan parser *)

Lemma parse_lines_malformed line e lines : forall acc,
  In line lines -> parse_line line = Raise e ->
  exists e', parse_lines lines acc = Raise e'.
Proof.
  induction lines as [|l lines IH]; intros acc Hin Hbad; [contradiction|].
  simpl. destruct Hin as [->|Hin].
  - rewrite Hbad. simpl. eauto.
  - destruct (parse_line l); simpl; eauto.
Qed.

Lemma parse_lines_ok lines : forall acc l,
  parse_lines lines acc = Ok l ->
  exists pairs, l = acc ++ pairs /\ map parse_line lines = map Ok pairs.
Proof.
  induction lines as [|line lines IH]; intros acc l; simpl.
  - intros H. inversion H. exists []. rewrite app_nil_r. auto.
  - destruct (parse_line line) as [p|e] eqn:E; simpl; [|discriminate].
    intros H. destruct (IH _ _ H) as (pairs & -> & Hm).
    exists (p :: pairs). rewrite <- app_assoc. simpl. split; congruence.
Qed.

Lemma split_length sep s :
  List.length (PyStr.split sep s) = S (PyStr.count sep s).
Proof.
  induction s as [|c s IH]; simpl; [reflexivity|].
  destruct (Ascii.eqb c sep); simpl; [congruence|].
  destruct (PyStr.split sep s); simpl in *; congruence.
Qed.

Lemma parse_line_colons line :
  PyStr.count ":"%char line <> 1%nat -> parse_line line = Raise ValueError.
Proof.
  intros H. unfold parse_line.
  pose proof (split_length ":"%char line) as L.
  destruct (PyStr.split ":"%char line) as [|a [|b [|c l]]]; simpl in L;
    try reflexivity.
  congruence.
Qed.

Lemma get_wifi_signal_malformed out line e :
  In line (PyStr.split newline (PyStr.strip out)) ->
  parse_line line = Raise e ->
  get_wifi_signal (Ok out) = [].
Proof.
  intros Hin Hbad. unfold get_wifi_signal. simpl.
  destruct (parse_lines_malformed line e _ [] Hin Hbad) as [e' ->].
  reflexivity.
Qed.

Lemma lstrip_all_space ws s :
  PyStr.all_chars PyStr.is_space ws = true -> PyStr.lstrip (ws ++ s)%string = PyStr.lstrip s.
Proof.
  induction ws as [|c ws IH]; simpl; [reflexivity|].
  intros H. apply andb_true_iff in H as [Hc Hws]. rewrite Hc. auto.
Qed.

Lemma rstrip_all_space ws : PyStr.all_chars PyStr.is_space ws = true -> PyStr.rstrip ws = EmptyString.
Proof.
  induction ws as [|c ws IH]; simpl; [reflexivity|].
  intros H. apply andb_true_iff in H as [Hc Hws]. rewrite (IH Hws), Hc.
  reflexivity.
Qed.

Lemma rstrip_app_space s ws :
  PyStr.all_chars PyStr.is_space ws = true -> PyStr.rstrip (s ++ ws)%string = PyStr.rstrip s.
Proof.
  intros H. induction s as [|c s IH]; simpl.
  - apply rstrip_all_space. exact H.
  - rewrite IH. reflexivity.
Qed.

Lemma lstrip_blank ws :
  PyStr.all_chars PyStr.is_space ws = true -> PyStr.lstrip ws = EmptyString.
Proof.
  induction ws as [|c ws IH]; simpl; [reflexivity|].
  intros H. apply andb_true_iff in H as [Hc Hws]. rewrite Hc. auto.
Qed.

Lemma strip_surrounding_space ws s ws' :
  PyStr.all_chars PyStr.is_space ws = true -> PyStr.all_chars PyStr.is_space ws' = true ->
  PyStr.strip (ws ++ s ++ ws')%string = PyStr.strip s.
Proof.
  intros H H'. unfold PyStr.strip. rewrite lstrip_all_space by assumption.
  induction s as [|c s IH]; simpl.
  - rewrite lstrip_blank by assumption. reflexivity.
  - destruct (PyStr.is_space c); [exact IH|].
    apply (rstrip_app_space (String c s)). assumption.
Qed.

(** ** Parsing the text of a well-formed scan *)

Lemma digit_char_nat n :
  nat_of_ascii (digit_char n) = (48 + Z.to_nat (n mod 10))%nat.
Proof.
  unfold digit_char.
  pose proof (Z.mod_pos_bound n 10 ltac:(lia)) as B.
  apply nat_ascii_embedding. lia.
Qed.

Lemma digit_char_is_digit n : PyStr.is_digit (digit_char n) = true.
Proof.
  unfold PyStr.is_digit. rewrite digit_char_nat.
  pose proof (Z.mod_pos_bound n 10 ltac:(lia)) as B.
  apply andb_true_iff. split; apply Z.leb_le; lia.
Qed.

Lemma digit_char_value n : PyStr.digit_value (digit_char n) = n mod 10.
Proof.
  unfold PyStr.digit_value. rewrite digit_char_nat.
  pose proof (Z.mod_pos_bound n 10 ltac:(lia)) as B. lia.
Qed.

Lemma string_app_assoc (s t u : string) :
  ((s ++ t) ++ u = s ++ (t ++ u))%string.
Proof. induction s as [|c s IH]; simpl; congruence. Qed.

Lemma all_chars_app p s t :
  PyStr.all_chars p (s ++ t)%string =
  PyStr.all_chars p s && PyStr.all_chars p t.
Proof.
  induction s as [|c s IH]; simpl; [reflexivity|].
  rewrite IH, andb_assoc. reflexivity.
Qed.

Lemma all_chars_impl (p q : ascii -> bool) s :
  (forall c, p c = true -> q c = true) ->
  PyStr.all_chars p s = true -> PyStr.all_chars q s = true.
Proof.
  intros Hpq. induction s as [|c s IH]; simpl; [reflexivity|].
  intros H. apply andb_true_iff in H as [Hc Hs].
  rewrite (Hpq c Hc), (IH Hs). reflexivity.
Qed.

Lemma finish_digits_short acc digits :
  digits <= PyStr.int_max_str_digits ->
  PyStr.finish_digits acc digits true = Ok acc.
Proof.
  intros H. unfold PyStr.finish_digits.
  destruct (Z.ltb_spec PyStr.int_max_str_digits digits); [lia|reflexivity].
Qed.

Lemma finish_digits_long acc digits :
  PyStr.int_max_str_digits < digits ->
  PyStr.finish_digits acc digits true = Raise ValueError.
Proof.
  intros H. unfold PyStr.finish_digits.
  destruct (Z.ltb_spec PyStr.int_max_str_digits digits); [reflexivity|lia].
Qed.

(** The digits written for [n] are [k] digits, [k] the length of [n] in
    decimal; they end with the unit digit and are read as [n]. *)
Lemma decimal_digits_spec fuel : forall n acc,
  0 <= n -> (Z.to_nat n < fuel)%nat ->
  exists pre k,
    1 <= k /\ (k = 1 \/ 10 ^ (k - 1) <= n) /\ n < 10 ^ k /\
    decimal_digits fuel n acc = (pre ++ String (digit_char n) acc)%string /\
    PyStr.all_chars PyStr.is_digit pre = true /\
    forall rest a g b,
      PyStr.parse_digits (pre ++ String (digit_char n) rest) a g b =
      PyStr.parse_digits rest (a * 10 ^ k + n) (g + k) true.
Proof.
  induction fuel as [|fuel IH]; intros n acc Hn Hf; [lia|].
  cbn [decimal_digits]. destruct (Z.ltb_spec n 10) as [Hlt|Hge].
  - exists EmptyString, 1. split; [lia|]. split; [left; reflexivity|].
    split; [change (10 ^ 1) with 10; lia|].
    split; [reflexivity|]. split; [reflexivity|].
    intros rest a g b. cbn [append PyStr.parse_digits].
    rewrite digit_char_is_digit, digit_char_value.
    rewrite Z.mod_small by lia.
    replace (a * 10 ^ 1 + n) with (a * 10 + n) by lia. reflexivity.
  - assert (Hq : 0 <= n / 10 < n).
    { split; [apply Z.div_pos; lia|apply Z.div_lt; lia]. }
    pose proof (Z.div_mod n 10 ltac:(lia)) as Hdm.
    pose proof (Z.mod_pos_bound n 10 ltac:(lia)) as Hmb.
    destruct (IH (n / 10) (String (digit_char n) acc))
      as (pre & k & Hk & Lo & Hi & E & D & P); [lia|lia|].
    exists (pre ++ String (digit_char (n / 10)) EmptyString)%string, (k + 1).
    split; [lia|]. split; [|split; [|split; [|split]]].
    + right. replace (k + 1 - 1) with (k - 1 + 1) by lia.
      rewrite Z.pow_add_r by lia. change (10 ^ 1) with 10.
      destruct Lo as [->|Lo]; [change (10 ^ (1 - 1)) with 1; lia|lia].
    + rewrite Z.pow_add_r by lia. change (10 ^ 1) with 10. lia.
    + rewrite E, string_app_assoc. reflexivity.
    + rewrite all_chars_app, D. cbn [PyStr.all_chars andb].
      rewrite digit_char_is_digit. reflexivity.
    + intros rest a g b. rewrite string_app_assoc. cbn [append].
      rewrite P. cbn [PyStr.parse_digits].
      rewrite digit_char_is_digit, digit_char_value.
      rewrite Z.pow_add_r by lia. change (10 ^ 1) with 10.
      replace ((a * 10 ^ k + n / 10) * 10 + n mod 10)
        with (a * (10 ^ k * 10) + n) by lia.
      replace (g + k + 1) with (g + (k + 1)) by lia.
      reflexivity.
Qed.

Lemma digit_not_space c : PyStr.is_digit c = true -> PyStr.is_space c = false.
Proof.
  unfold PyStr.is_digit, PyStr.is_space. intros H.
  apply andb_true_iff in H as [H1 H2]. apply Z.leb_le in H1, H2.
  repeat (apply orb_false_iff; split);
    try (apply andb_false_iff; (left; apply Z.leb_gt; lia) || (right; apply Z.leb_gt; lia));
    apply Z.eqb_neq; lia.
Qed.

Lemma rstrip_ends_nonspace s c :
  PyStr.is_space c = false ->
  PyStr.rstrip (s ++ String c EmptyString) = (s ++ String c EmptyString)%string.
Proof.
  intros Hc. induction s as [|a s IH]; cbn [append PyStr.rstrip].
  - rewrite Hc. reflexivity.
  - rewrite IH. destruct s; reflexivity.
Qed.

Lemma int_unsigned c s :
  PyStr.is_digit c = true ->
  PyStr.int (String c s) = PyStr.parse_digits (String c s) 0 0 false.
Proof.
  intros Hc. unfold PyStr.int.
  destruct c as [[] [] [] [] [] [] [] []]; try discriminate; reflexivity.
Qed.

Lemma decimal_nonneg_shape z :
  0 <= z ->
  exists pre k,
    1 <= k /\ (k = 1 \/ 10 ^ (k - 1) <= z) /\ z < 10 ^ k /\
    decimal z = (pre ++ String (digit_char z) EmptyString)%string /\
    PyStr.all_chars PyStr.is_digit pre = true /\
    forall a g b,
      PyStr.parse_digits (decimal z) a g b =
      PyStr.finish_digits (a * 10 ^ k + z) (g + k) true.
Proof.
  intros Hz. unfold decimal. destruct (Z.ltb_spec z 0); [lia|].
  destruct (decimal_digits_spec (S (Z.to_nat z)) z EmptyString Hz ltac:(lia))
    as (pre & k & Hk & Lo & Hi & E & D & P).
  exists pre, k. rewrite E. repeat split; try assumption.
  intros a g b. rewrite P. reflexivity.
Qed.

(** The length [k] of [z] in decimal is within the limit of [int] exactly
    when [z < 10 ^ 4300]. *)
Lemma decimal_length_limit z k :
  1 <= k -> (k = 1 \/ 10 ^ (k - 1) <= z) -> z < 10 ^ k ->
  (z < 10 ^ PyStr.int_max_str_digits -> k <= PyStr.int_max_str_digits) /\
  (10 ^ PyStr.int_max_str_digits <= z -> PyStr.int_max_str_digits < k).
Proof.
  intros Hk Lo Hi. unfold PyStr.int_max_str_digits. split; intros H.
  - assert (Y : k = 1 \/ k - 1 < 4300).
    { destruct Lo as [->|Lo]; [left; reflexivity|right].
      apply (proj2 (Z.pow_lt_mono_r_iff 10 (k - 1) 4300 eq_refl
                      ltac:(discriminate))).
      eapply Z.le_lt_trans; eassumption. }
    clear Lo Hi H. lia.
  - apply (proj2 (Z.pow_lt_mono_r_iff 10 4300 k eq_refl
                    ltac:(clear - Hk; lia))).
    eapply Z.le_lt_trans; eassumption.
Qed.

(** The text written for a signal: digits after an optional minus sign. *)
Lemma decimal_chars z :
  PyStr.all_chars (fun c => PyStr.is_digit c || Ascii.eqb c "-"%char)
    (decimal z) = true /\
  exists body d, decimal z = (body ++ String d EmptyString)%string /\
                 PyStr.is_digit d = true.
Proof.
  assert (G : forall n, 0 <= n ->
    PyStr.all_chars (fun c => PyStr.is_digit c || Ascii.eqb c "-"%char)
      (decimal n) = true /\
    exists body d, decimal n = (body ++ String d EmptyString)%string /\
                   PyStr.is_digit d = true).
  { intros n Hn.
    destruct (decimal_nonneg_shape n Hn) as (pre & k & _ & _ & _ & E & D & _).
    rewrite E. split.
    - rewrite all_chars_app. cbn [PyStr.all_chars].
      rewrite digit_char_is_digit. cbn [orb andb]. rewrite andb_true_r.
      apply (all_chars_impl PyStr.is_digit); [|assumption].
      intros c ->. reflexivity.
    - exists pre, (digit_char n). split; [reflexivity|apply digit_char_is_digit]. }
  destruct (Z.ltb_spec z 0) as [Hneg|Hpos].
  - destruct (G (- z) ltac:(lia)) as (A & body & d & E & Hd).
    unfold decimal in *. destruct (Z.ltb_spec z 0); [|lia].
    destruct (Z.ltb_spec (- z) 0); [lia|].
    split.
    + cbn [PyStr.all_chars]. rewrite A. reflexivity.
    + exists (String "-"%char body), d. rewrite E. split; [reflexivity|assumption].
  - apply G. assumption.
Qed.

(** [int] of the text written for [z]: the parse of the digits of [|z|],
    signed. *)
Lemma int_decimal_digits z :
  exists k,
    1 <= k /\ (k = 1 \/ 10 ^ (k - 1) <= Z.abs z) /\ Z.abs z < 10 ^ k /\
    PyStr.int (decimal z) =
    bind (PyStr.finish_digits (Z.abs z) k true)
         (fun n => Ok (if z <? 0 then - n else n)).
Proof.
  destruct (Z.ltb_spec z 0) as [Hneg|Hpos].
  - destruct (decimal_nonneg_shape (- z) ltac:(lia))
      as (pre & k & Hk & Lo & Hi & _ & _ & P).
    exists k. rewrite Z.abs_neq by lia. repeat split; try assumption.
    unfold decimal in P |- *. destruct (Z.ltb_spec z 0); [|lia].
    destruct (Z.ltb_spec (- z) 0); [lia|].
    unfold PyStr.int. cbn [PyStr.skip_int_space PyStr.is_int_space].
    change (PyStr.is_int_space "-"%char) with false. cbv iota.
    rewrite P. reflexivity.
  - destruct (decimal_nonneg_shape z Hpos)
      as (pre & k & Hk & Lo & Hi & E & D & P).
    exists k. rewrite Z.abs_eq by lia. repeat split; try assumption.
    assert (exists c s, decimal z = String c s /\ PyStr.is_digit c = true)
      as (c & s & Ecs & Hc).
    { rewrite E. destruct pre as [|c pre]; cbn [append].
      - eexists _, _. split; [reflexivity|apply digit_char_is_digit].
      - cbn [PyStr.all_chars] in D. apply andb_true_iff in D as [Hc _].
        eexists _, _. split; [reflexivity|assumption]. }
    rewrite Ecs, (int_unsigned c s Hc), <- Ecs, P.
    cbn [Z.mul Z.add].
    destruct (PyStr.finish_digits z k true); reflexivity.
Qed.

Lemma int_decimal z :
  Z.abs z < 10 ^ PyStr.int_max_str_digits -> PyStr.int (decimal z) = Ok z.
Proof.
  intros Hz. destruct (int_decimal_digits z) as (k & Hk & Lo & Hi & ->).
  destruct (decimal_length_limit _ k Hk Lo Hi) as [Hs _].
  rewrite finish_digits_short by auto. cbn [bind].
  clear Hz Hk Lo Hi Hs. destruct (Z.ltb_spec z 0); f_equal; lia.
Qed.

Lemma int_decimal_too_long z :
  10 ^ PyStr.int_max_str_digits <= Z.abs z ->
  PyStr.int (decimal z) = Raise ValueError.
Proof.
  intros Hz. destruct (int_decimal_digits z) as (k & Hk & Lo & Hi & ->).
  destruct (decimal_length_limit _ k Hk Lo Hi) as [_ Hl].
  rewrite finish_digits_long by auto. reflexivity.
Qed.

Lemma split_no_sep sep s :
  PyStr.all_chars (fun c => negb (Ascii.eqb c sep)) s = true ->
  PyStr.split sep s = [s].
Proof.
  induction s as [|c s IH]; cbn [PyStr.all_chars PyStr.split]; [reflexivity|].
  intros H. apply andb_true_iff in H as [Hc Hs]. apply negb_true_iff in Hc.
  rewrite Hc, (IH Hs). reflexivity.
Qed.

Lemma split_app_sep sep s t :
  PyStr.all_chars (fun c => negb (Ascii.eqb c sep)) s = true ->
  PyStr.split sep (s ++ String sep t) = s :: PyStr.split sep t.
Proof.
  induction s as [|c s IH]; cbn [PyStr.all_chars PyStr.split append].
  - intros _. rewrite Ascii.eqb_refl. reflexivity.
  - intros H. apply andb_true_iff in H as [Hc Hs]. apply negb_true_iff in Hc.
    rewrite Hc, (IH Hs). reflexivity.
Qed.

Lemma decimal_no_sep sep z :
  PyStr.is_digit sep = false -> sep <> "-"%char ->
  PyStr.all_chars (fun c => negb (Ascii.eqb c sep)) (decimal z) = true.
Proof.
  intros Hs Hm. destruct (decimal_chars z) as (A & _). revert A.
  apply all_chars_impl. intros c Hc. apply negb_true_iff.
  apply Ascii.eqb_neq. intros ->.
  apply orb_true_iff in Hc as [Hc|Hc]; [congruence|].
  apply Ascii.eqb_eq in Hc. congruence.
Qed.

Lemma plain_ssid_no_sep sep s :
  sep = ":"%char \/ sep = newline ->
  plain_ssid s = true ->
  PyStr.all_chars (fun c => negb (Ascii.eqb c sep)) s = true.
Proof.
  intros Hsep. unfold plain_ssid. apply all_chars_impl.
  intros c H. apply andb_true_iff in H as [H1 H2].
  destruct Hsep; subst; assumption.
Qed.

Lemma parse_line_nmcli_line network :
  plain_ssid (fst network) = true ->
  Z.abs (snd network) < 10 ^ PyStr.int_max_str_digits ->
  parse_line (nmcli_line network) = Ok network.
Proof.
  destruct network as [name z]. cbn [fst snd]. intros Hp Hz.
  unfold parse_line, nmcli_line. cbn [fst snd].
  rewrite split_app_sep by (apply plain_ssid_no_sep; auto).
  rewrite split_no_sep by (apply decimal_no_sep; [reflexivity|discriminate]).
  rewrite int_decimal by assumption. reflexivity.
Qed.

Lemma parse_line_nmcli_line_too_long network :
  plain_ssid (fst network) = true ->
  10 ^ PyStr.int_max_str_digits <= Z.abs (snd network) ->
  parse_line (nmcli_line network) = Raise ValueError.
Proof.
  destruct network as [name z]. cbn [fst snd]. intros Hp Hz.
  unfold parse_line, nmcli_line. cbn [fst snd].
  rewrite split_app_sep by (apply plain_ssid_no_sep; auto).
  rewrite split_no_sep by (apply decimal_no_sep; [reflexivity|discriminate]).
  rewrite int_decimal_too_long by assumption. reflexivity.
Qed.

Lemma nmcli_line_no_newline network :
  plain_ssid (fst network) = true ->
  PyStr.all_chars (fun c => negb (Ascii.eqb c newline)) (nmcli_line network)
  = true.
Proof.
  intros Hp. unfold nmcli_line. rewrite all_chars_app.
  rewrite plain_ssid_no_sep by auto. cbn [PyStr.all_chars andb].
  rewrite decimal_no_sep by (reflexivity || discriminate). reflexivity.
Qed.

Lemma nmcli_line_ends_digit network :
  exists body d, nmcli_line network = (body ++ String d EmptyString)%string /\
                 PyStr.is_digit d = true.
Proof.
  unfold nmcli_line.
  destruct (decimal_chars (snd network)) as (_ & body & d & E & Hd).
  exists (fst network ++ String ":"%char body)%string, d.
  rewrite E, string_app_assoc. split; [reflexivity|assumption].
Qed.

(** The text of a non-empty scan ends with a digit and a newline, and the
    lines before that newline are the lines of the networks. *)
Lemma nmcli_output_shape networks :
  networks <> [] ->
  Forall (fun n => plain_ssid (fst n) = true) networks ->
  exists b d,
    nmcli_output networks =
      (b ++ String d (String newline EmptyString))%string /\
    PyStr.is_digit d = true /\
    PyStr.split newline (b ++ String d EmptyString) = map nmcli_line networks.
Proof.
  induction networks as [|n rest IH]; [congruence|]. intros _ Hall.
  inversion Hall as [|? ? Hn Hrest]; subst.
  destruct rest as [|n' rest'].
  - destruct (nmcli_line_ends_digit n) as (b & d & E & Hd).
    exists b, d. cbn [nmcli_output map]. rewrite E, string_app_assoc.
    split; [reflexivity|]. split; [assumption|].
    rewrite <- E. apply split_no_sep. apply nmcli_line_no_newline. assumption.
  - destruct (IH ltac:(discriminate) Hrest) as (b & d & E & Hd & Sp).
    exists (nmcli_line n ++ String newline b)%string, d.
    change (nmcli_output (n :: n' :: rest'))
      with (nmcli_line n ++ String newline (nmcli_output (n' :: rest')))%string.
    rewrite E. split; [|split; [assumption|]].
    + rewrite string_app_assoc. reflexivity.
    + rewrite string_app_assoc. cbn [append].
      rewrite split_app_sep by (apply nmcli_line_no_newline; assumption).
      rewrite Sp. reflexivity.
Qed.

Lemma parse_lines_nmcli networks : forall acc,
  Forall (fun n => plain_ssid (fst n) = true) networks ->
  Forall (fun n => Z.abs (snd n) < 10 ^ PyStr.int_max_str_digits) networks ->
  parse_lines (map nmcli_line networks) acc = Ok (acc ++ networks).
Proof.
  induction networks as [|n rest IH]; intros acc Hall Hfit;
    cbn [map parse_lines].
  - rewrite app_nil_r. reflexivity.
  - inversion Hall as [|? ? Hn Hrest]; subst.
    inversion Hfit as [|? ? Hz Hzrest]; subst.
    rewrite parse_line_nmcli_line by assumption. cbn [bind].
    rewrite IH by assumption. rewrite <- app_assoc. reflexivity.
Qed.

(** The stripped text of a non-empty scan, split at the newlines, is the
    list of the networks' lines. *)
Lemma nmcli_output_lines networks :
  networks <> [] ->
  Forall (fun n => plain_ssid (fst n) = true) networks ->
  PyStr.lstrip (nmcli_output networks) = nmcli_output networks ->
  PyStr.split newline (PyStr.strip (nmcli_output networks)) =
  map nmcli_line networks.
Proof.
  intros Hne Hall Hl.
  destruct (nmcli_output_shape networks Hne Hall) as (b & d & E & Hd & Sp).
  unfold PyStr.strip. rewrite Hl, E.
  change (b ++ String d (String newline EmptyString))%string
    with (b ++ (String d EmptyString ++ String newline EmptyString))%string.
  rewrite <- string_app_assoc.
  rewrite rstrip_app_space by reflexivity.
  rewrite rstrip_ends_nonspace by (apply digit_not_space; assumption).
  exact Sp.
Qed.

(** X1: the text of a list of networks, one [name:signal] line each, no
    name holding a colon or a newline and the text not beginning with
    whitespace, is parsed back to that list when every signal is written
    with at most 4300 digits; a longer signal is refused by [int] and the
    result is empty. *)
Theorem get_wifi_signal_nmcli_output networks :
  Forall (fun n => plain_ssid (fst n) = true) networks ->
  PyStr.lstrip (nmcli_output networks) = nmcli_output networks ->
  (Forall (fun n => Z.abs (snd n) < 10 ^ 4300) networks ->
   get_wifi_signal (Ok (nmcli_output networks)) = networks) /\
  (Exists (fun n => 10 ^ 4300 <= Z.abs (snd n)) networks ->
   get_wifi_signal (Ok (nmcli_output networks)) = []).
Proof.
  intros Hall Hl. split.
  - intros Hfit. destruct networks as [|n rest]; [reflexivity|].
    unfold get_wifi_signal. cbn [bind].
    rewrite nmcli_output_lines by (assumption || discriminate).
    rewrite parse_lines_nmcli by assumption. reflexivity.
  - intros Hbig. apply Exists_exists in Hbig as (n & Hin & Hn).
    apply (get_wifi_signal_malformed _ (nmcli_line n) ValueError).
    + rewrite nmcli_output_lines; try assumption.
      * apply in_map. assumption.
      * intros ->. contradiction.
    + apply parse_line_nmcli_line_too_long; [|assumption].
      rewrite Forall_forall in Hall. apply Hall. assumption.
Qed.
(** ** The scan and debug handlers *)

Section HandlerFacts.

Variable libm_pow10 : Z -> B64.float.
Variable wall_clock : nat -> datetime.

Lemma calculate_distance_shape s :
  calculate_distance libm_pow10 s = Py.PyInt 0 \/
  exists d, calculate_distance libm_pow10 s = Py.PyFloat d.
Proof.
  unfold calculate_distance.
  destruct (distance_formula libm_pow10 (normalize s)); eauto.
Qed.

Lemma of_scaled_not_nan n : B64.of_scaled n <> B64.NaN.
Proof.
  unfold B64.of_scaled.
  destruct (B64.huge <=? n); [discriminate|].
  destruct (n <=? - B64.huge); discriminate.
Qed.

Lemma round_not_nan x ndigits d :
  x <> B64.NaN -> Py.round x ndigits = Ok d -> d <> B64.NaN.
Proof.
  intros Hx. unfold Py.round. destruct x as [n| | |]; [|congruence..].
  cbv zeta. destruct (0 <=? ndigits).
  - destruct (B64.is_inf _); [discriminate|].
    intros H. inversion H. apply of_scaled_not_nan.
  - destruct (B64.is_inf _); [discriminate|].
    intros H. inversion H. apply of_scaled_not_nan.
Qed.

(** The estimate is a NaN only if the library's power is one. *)
Lemma calculate_distance_not_nan s :
  (forall n, libm_pow10 n <> B64.NaN) ->
  calculate_distance libm_pow10 s <> Py.PyFloat B64.NaN.
Proof.
  intros Hl. unfold calculate_distance, distance_formula, distance_meters.
  destruct (Py.int_truediv _ _) as [exponent|e] eqn:E; cbn [bind];
    [|discriminate].
  destruct (Py.float_pow10 libm_pow10 exponent) as [p|e] eqn:P; cbn [bind];
    [|discriminate].
  assert (X : B64.mul p (B64.of_decimal 328084 5) <> B64.NaN).
  { destruct (int_truediv_finite _ _ _ E) as (n & ->).
    destruct B64Facts.feet_factor as (c & -> & Hc).
    destruct (float_pow10_finite _ _ _ P) as [[_ ->]|[N ->]].
    - unfold B64.one, B64.mul, B64.round_ratio. apply of_scaled_not_nan.
    - destruct (libm_pow10 n) as [a| | |] eqn:L.
      + unfold B64.mul, B64.round_ratio. apply of_scaled_not_nan.
      + rewrite float_pow10_nonzero, L in P by assumption. discriminate P.
      + rewrite float_pow10_nonzero, L in P by assumption. discriminate P.
      + exfalso. apply (Hl n). assumption. }
  destruct (Py.round _ 2) as [d|e] eqn:R; [|discriminate].
  intros H. inversion H; subst d.
  exact (round_not_nan _ _ _ X R eq_refl).
Qed.

(** What the REAL column returns for an estimate is equal to it as a
    number, unless the estimate is a NaN, stored as NULL. *)
Lemma real_affinity_estimate s :
  match real_affinity (calculate_distance libm_pow10 s) with
  | Some x =>
      Py.num_eqb (Py.PyFloat x) (calculate_distance libm_pow10 s) = true
  | None => calculate_distance libm_pow10 s = Py.PyFloat B64.NaN
  end.
Proof.
  destruct (calculate_distance_shape s) as [->|(d & ->)].
  - vm_compute. reflexivity.
  - destruct d as [n| | |]; cbn [real_affinity]; try reflexivity.
    unfold Py.num_eqb. cbn [Py.num_leb B64.leb].
    rewrite Z.leb_refl. reflexivity.
Qed.

Lemma sql_bind_estimate s :
  sql_bind (calculate_distance libm_pow10 s) =
  Ok (calculate_distance libm_pow10 s).
Proof.
  destruct (calculate_distance_shape s) as [->|(d & ->)]; reflexivity.
Qed.

(** The INSERT of a scanned pair succeeds exactly when the signal fits
    the INTEGER column. *)
Lemma log_to_database_estimate name s w :
  log_to_database wall_clock name s (calculate_distance libm_pow10 s) w =
  if fits_int64 s
  then Ok {| wifi_signal := wifi_signal w ++
               [{| id := sqlite_sequence w + 1;
                   timestamp := strftime (wall_clock (ticks w));
                   ssid := name; rssi := s;
                   distance :=
                     real_affinity (calculate_distance libm_pow10 s) |}];
             sqlite_sequence := sqlite_sequence w + 1;
             ticks := S (ticks w) |}
  else Raise OverflowError.
Proof.
  unfold log_to_database. cbn [sql_bind].
  destruct (fits_int64 s); cbn [bind]; [|reflexivity].
  rewrite sql_bind_estimate. reflexivity.
Qed.

Lemma scan_is_loop nmcli w :
  scan libm_pow10 wall_clock nmcli w =
  (bind (fst (scan_loop libm_pow10 wall_clock (get_wifi_signal nmcli) w))
        (fun _ => Ok [("status", JString "Scan complete")]%string),
   snd (scan_loop libm_pow10 wall_clock (get_wifi_signal nmcli) w)).
Proof.
  unfold scan. destruct (get_wifi_signal nmcli) as [|p l]; [reflexivity|].
  destruct (scan_loop libm_pow10 wall_clock (p :: l) w). reflexivity.
Qed.

(** The rows one run of the loop appends: one per pair that passes the
    filter, in order, up to the first pair the INSERT refuses, numbered
    and time-stamped from the counters; the loop ends with that INSERT's
    exception, or normally when no INSERT raised. *)
Lemma scan_loop_rows wifi_signals : forall w,
  exists rows,
    wifi_signal (snd (scan_loop libm_pow10 wall_clock wifi_signals w)) =
      wifi_signal w ++ rows /\
    map (fun r => (ssid r, rssi r, distance r)) rows =
      map (fun p => (fst p, snd p,
                     real_affinity (calculate_distance libm_pow10 (snd p))))
          (storable_prefix (strong_enough wifi_signals)) /\
    map id rows =
      map (fun i => sqlite_sequence w + 1 + Z.of_nat i)
          (seq 0 (List.length rows)) /\
    map timestamp rows =
      map (fun i => strftime (wall_clock (ticks w + i)))
          (seq 0 (List.length rows)) /\
    sqlite_sequence (snd (scan_loop libm_pow10 wall_clock wifi_signals w)) =
      sqlite_sequence w + Z.of_nat (List.length rows) /\
    ticks (snd (scan_loop libm_pow10 wall_clock wifi_signals w)) =
      (ticks w + List.length rows)%nat /\
    fst (scan_loop libm_pow10 wall_clock wifi_signals w) =
      if forallb (fun p => fits_int64 (snd p)) (strong_enough wifi_signals)
      then Ok tt else Raise OverflowError.
Proof.
  induction wifi_signals as [|[name s] rest IH]; intros w.
  - exists []. cbn. rewrite app_nil_r. repeat split; lia.
  - unfold strong_enough in *. cbn [scan_loop filter fst snd].
    destruct (s <? -80) eqn:E; cbn [negb].
    + apply IH.
    + rewrite log_to_database_estimate.
      cbn [storable_prefix forallb fst snd].
      destruct (fits_int64 s) eqn:F; cbn [andb].
      * match goal with
        | |- context [scan_loop _ _ rest ?w'] =>
            destruct (IH w') as (rows & Ht & Hm & Hi & Hs & Hq & Hk & Hr)
        end.
        cbn [wifi_signal sqlite_sequence ticks] in *.
        eexists (_ :: rows). rewrite Ht, <- app_assoc. cbn [app].
        split; [reflexivity|].
        cbn [map List.length seq id timestamp ssid rssi distance fst snd].
        rewrite Hm, Hi, Hs, Hq, Hk, Hr. rewrite <- !seq_shift, !map_map.
        split; [reflexivity|].
        split; [|split; [|split; [lia|split; [lia|reflexivity]]]].
        -- f_equal; [lia|]. apply map_ext. intros i. lia.
        -- f_equal; [do 2 f_equal; lia|]. apply map_ext. intros i.
           do 2 f_equal. lia.
      * exists []. cbn [snd fst map List.length seq].
        rewrite app_nil_r. repeat split; lia.
Qed.

Lemma debug_loop_objects wifi_signals : forall debug_data,
  debug_loop libm_pow10 wifi_signals debug_data =
  debug_data ++
  map (fun p => [("SSID", JString (fst p)); ("RSSI", JNumber (Py.PyInt (snd p)));
                 ("Distance", JNumber (calculate_distance libm_pow10 (snd p)))]%string)
      (strong_enough wifi_signals).
Proof.
  unfold strong_enough.
  induction wifi_signals as [|[name s] rest IH]; intros debug_data.
  - cbn. rewrite app_nil_r. reflexivity.
  - cbn [debug_loop filter fst snd]. destruct (s <? -80); cbn [negb].
    + apply IH.
    + rewrite IH, <- app_assoc. reflexivity.
Qed.

Lemma strong_enough_In (p : string * Z) wifi_signals :
  In p (strong_enough wifi_signals) <-> In p wifi_signals /\ -80 <= snd p.
Proof.
  unfold strong_enough. rewrite filter_In, negb_true_iff, Z.ltb_ge.
  reflexivity.
Qed.

Lemma storable_prefix_incl (pairs : list (string * Z)) : forall p,
  In p (storable_prefix pairs) -> In p pairs /\ fits_int64 (snd p) = true.
Proof.
  induction pairs as [|q pairs IH]; intros p; cbn [storable_prefix];
    [contradiction|].
  destruct (fits_int64 (snd q)) eqn:F; [|contradiction].
  intros [->|H]; [split; [left; reflexivity|assumption]|].
  destruct (IH p H). split; [right|]; assumption.
Qed.

Lemma storable_prefix_all (pairs : list (string * Z)) :
  Forall (fun p => fits_int64 (snd p) = true) pairs ->
  storable_prefix pairs = pairs /\
  forallb (fun p => fits_int64 (snd p)) pairs = true.
Proof.
  induction 1 as [|p pairs Hp _ [IH1 IH2]]; [split; reflexivity|].
  cbn [storable_prefix forallb]. rewrite Hp, IH1, IH2. split; reflexivity.
Qed.

Lemma storable_prefix_some (pairs : list (string * Z)) :
  Exists (fun p => fits_int64 (snd p) = false) pairs ->
  forallb (fun p => fits_int64 (snd p)) pairs = false.
Proof.
  induction 1 as [p pairs Hp|p pairs _ IH]; cbn [forallb].
  - rewrite Hp. reflexivity.
  - rewrite IH. apply andb_false_r.
Qed.

Lemma triples_forall_aux k : forall rows,
  map (fun r => (ssid r, rssi r, distance r)) rows =
  map (fun p => (fst p, snd p,
                 real_affinity (calculate_distance libm_pow10 (snd p)))) k ->
  Forall (fun r => In (ssid r, rssi r) k /\
                   distance r =
                     real_affinity (calculate_distance libm_pow10 (rssi r)))
         rows.
Proof.
  induction k as [|[name s] k IH]; intros [|r rows] H; try discriminate;
    constructor.
  - cbn [map fst snd] in H. inversion H as [[H1 H2 H3 H4]].
    split; [left; reflexivity|]. reflexivity.
  - cbn [map] in H. inversion H as [[H1 H2 H3 H4]].
    eapply Forall_impl; [|apply (IH rows H4)].
    cbn beta. intros r' [Hin Hd]. split; [right; assumption|assumption].
Qed.

Lemma triples_forall rows l :
  map (fun r => (ssid r, rssi r, distance r)) rows =
  map (fun p => (fst p, snd p,
                 real_affinity (calculate_distance libm_pow10 (snd p))))
      (storable_prefix (strong_enough l)) ->
  Forall (fun r => In (ssid r, rssi r) l /\ -80 <= rssi r /\
                   fits_int64 (rssi r) = true /\
                   distance r =
                     real_affinity (calculate_distance libm_pow10 (rssi r)))
         rows.
Proof.
  intros H. eapply Forall_impl; [|apply (triples_forall_aux _ rows H)].
  cbn beta. intros r [Hin Hd].
  apply storable_prefix_incl in Hin as [Hin Hf].
  apply strong_enough_In in Hin as [Hin Hc]. cbn [snd] in Hc, Hf. auto.
Qed.

Lemma triples_pairs rows (k : list (string * Z)) :
  map (fun r => (ssid r, rssi r, distance r)) rows =
  map (fun p => (fst p, snd p,
                 real_affinity (calculate_distance libm_pow10 (snd p)))) k ->
  map (fun r => (ssid r, rssi r)) rows = k.
Proof.
  intros H. apply (f_equal (map fst)) in H. rewrite !map_map in H.
  cbn [fst] in H. rewrite H. rewrite <- (map_id k) at 2.
  apply map_ext. intros [a b]. reflexivity.
Qed.

Lemma map_seq_offset {A : Type} (f : nat -> A) n : forall a,
  map (fun i => f (a + i)%nat) (seq 0 n) = map f (seq a n).
Proof.
  induction n as [|n IH]; intros a; [reflexivity|].
  cbn [seq map]. rewrite Nat.add_0_r. f_equal.
  rewrite <- seq_shift, map_map, <- IH.
  apply map_ext. intros i. f_equal. lia.
Qed.

Lemma store_invariant_scan nmcli w :
  store_invariant libm_pow10 wall_clock w ->
  store_invariant libm_pow10 wall_clock (snd (scan libm_pow10 wall_clock nmcli w)).
Proof.
  intros (Hq & Hk & Hi & Hs & Hf).
  rewrite scan_is_loop. cbn [snd].
  destruct (scan_loop_rows (get_wifi_signal nmcli) w)
    as (rows & Ht & Hm & Hi' & Hs' & Hq' & Hk' & _).
  unfold store_invariant. rewrite Ht, Hq', Hk', !map_app, length_app.
  rewrite Hi, Hs, Hi', Hs', Hq, Hk, !seq_app, !map_app.
  split; [lia|]. split; [reflexivity|]. split; [|split].
  - f_equal. rewrite <- (map_seq_offset Z.of_nat).
    apply map_ext. intros i. lia.
  - f_equal. cbn [Nat.add].
    apply (map_seq_offset (fun i => strftime (wall_clock i))).
  - apply Forall_app. split; [assumption|].
    eapply Forall_impl; [|apply (triples_forall rows _ Hm)].
    cbn beta. intros r (_ & H1 & H2 & H3). auto.
Qed.

Lemma reachable_invariant w :
  reachable libm_pow10 wall_clock w -> store_invariant libm_pow10 wall_clock w.
Proof.
  induction 1 as [|nmcli w Hr IH].
  - unfold store_invariant. cbn. auto.
  - apply store_invariant_scan. assumption.
Qed.

(** What one request to [/scan] appends and answers. *)
Lemma scan_rows nmcli w :
  exists rows,
    wifi_signal (snd (scan libm_pow10 wall_clock nmcli w)) =
      wifi_signal w ++ rows /\
    map (fun r => (ssid r, rssi r, distance r)) rows =
      map (fun p => (fst p, snd p,
                     real_affinity (calculate_distance libm_pow10 (snd p))))
          (storable_prefix (strong_enough (get_wifi_signal nmcli))) /\
    fst (scan libm_pow10 wall_clock nmcli w) =
      if forallb (fun p => fits_int64 (snd p))
                 (strong_enough (get_wifi_signal nmcli))
      then Ok [("status", JString "Scan complete")]%string
      else Raise OverflowError.
Proof.
  rewrite scan_is_loop. cbn [snd fst].
  destruct (scan_loop_rows (get_wifi_signal nmcli) w)
    as (rows & Ht & Hm & _ & _ & _ & _ & Hr).
  exists rows. rewrite Hr. split; [assumption|]. split; [assumption|].
  destruct (forallb _ _); reflexivity.
Qed.

End HandlerFacts.

(** The scan result of the two-line text [HomeNet:-60], [Guest:-85]. *)
Lemma get_wifi_signal_two_lines :
  get_wifi_signal
    (Ok ("HomeNet:-60" ++ String newline "Guest:-85")%string) =
  [("HomeNet", -60); ("Guest", -85)]%string.
Proof. vm_compute. reflexivity. Qed.

(** A signal of [2^63] is read by the parser. *)
Lemma get_wifi_signal_big :
  get_wifi_signal (Ok "Big:9223372036854775808"%string) =
  [("Big"%string, 2 ^ 63)].
Proof. vm_compute. reflexivity. Qed.


(** ** What the handlers store and return *)

Section HandlerTheorems.

Variable libm_pow10 : Z -> B64.float.
Variable wall_clock : nat -> datetime.

(** C5 (amended): whatever the scan source returns, [scan] stores no pair
    whose raw signal is below -80.  The pairs with a signal of at least
    -80 are stored in order, each with its name, its signal and the
    estimate as the REAL column holds it, up to the first pair whose signal
    the INTEGER column cannot hold: all of them when every such signal is
    within 64 bits, and then the answer is "Scan complete"; otherwise the
    request ends with the INSERT's OverflowError.  Of the text
    [HomeNet:-60], [Guest:-85] only HomeNet is stored. *)
Theorem scan_drops_weak_signals nmcli w :
  (exists rows,
     wifi_signal (snd (scan libm_pow10 wall_clock nmcli w)) =
       wifi_signal w ++ rows /\
     map (fun r => (ssid r, rssi r, distance r)) rows =
       map (fun p => (fst p, snd p,
                      real_affinity (calculate_distance libm_pow10 (snd p))))
           (storable_prefix (strong_enough (get_wifi_signal nmcli))) /\
     Forall (fun r => -80 <= rssi r) rows) /\
  (forall p, In p (strong_enough (get_wifi_signal nmcli)) <->
             In p (get_wifi_signal nmcli) /\ -80 <= snd p) /\
  (Forall (fun p => fits_int64 (snd p) = true)
          (strong_enough (get_wifi_signal nmcli)) ->
   storable_prefix (strong_enough (get_wifi_signal nmcli)) =
     strong_enough (get_wifi_signal nmcli) /\
   fst (scan libm_pow10 wall_clock nmcli w) =
     Ok [("status", JString "Scan complete")]%string) /\
  (Exists (fun p => fits_int64 (snd p) = false)
          (strong_enough (get_wifi_signal nmcli)) ->
   fst (scan libm_pow10 wall_clock nmcli w) = Raise OverflowError) /\
  map ssid
    (wifi_signal
       (snd (scan libm_pow10 wall_clock
               (Ok ("HomeNet:-60" ++ String newline "Guest:-85")%string) w))) =
  map ssid (wifi_signal w) ++ ["HomeNet"%string].
Proof.
  split; [|split; [|split; [|split]]].
  - destruct (scan_rows libm_pow10 wall_clock nmcli w) as (rows & Ht & Hm & _).
    exists rows. split; [assumption|]. split; [assumption|].
    eapply Forall_impl; [|apply (triples_forall libm_pow10 rows _ Hm)].
    cbn beta. intros r (_ & H & _). exact H.
  - intros p. apply strong_enough_In.
  - intros Hfit. destruct (storable_prefix_all _ Hfit) as [E1 E2].
    split; [assumption|].
    destruct (scan_rows libm_pow10 wall_clock nmcli w) as (_ & _ & _ & Hr).
    rewrite Hr, E2. reflexivity.
  - intros Hbig.
    destruct (scan_rows libm_pow10 wall_clock nmcli w) as (_ & _ & _ & Hr).
    rewrite Hr, (storable_prefix_some _ Hbig). reflexivity.
  - destruct (scan_rows libm_pow10 wall_clock
                (Ok ("HomeNet:-60" ++ String newline "Guest:-85")%string) w)
      as (rows & -> & Hm & _).
    rewrite get_wifi_signal_two_lines in Hm.
    apply triples_pairs in Hm. rewrite map_app. f_equal.
    apply (f_equal (map fst)) in Hm. rewrite map_map in Hm. exact Hm.
Qed.


(** C9: a failed invocation, a line that does not parse and an empty
    output all give the empty list; [scan] then answers "Scan complete"
    and leaves the store as it was. *)
Theorem scan_source_failure nmcli w :
  (forall e, get_wifi_signal (Raise e) = []) /\
  (forall out line e,
     In line (PyStr.split newline (PyStr.strip out)) ->
     parse_line line = Raise e -> get_wifi_signal (Ok out) = []) /\
  (forall out, PyStr.strip out = EmptyString -> get_wifi_signal (Ok out) = []) /\
  (get_wifi_signal nmcli = [] ->
   scan libm_pow10 wall_clock nmcli w =
   (Ok [("status", JString "Scan complete")]%string, w)).
Proof.
  split; [reflexivity|]. split; [|split].
  - intros out line e. apply get_wifi_signal_malformed.
  - intros out H. unfold get_wifi_signal. cbn [bind]. rewrite H. reflexivity.
  - intros H. unfold scan. rewrite H. reflexivity.
Qed.

(** C10: the rows [scan] appends carry the pairs of the scan source that
    pass the filter, name and signal as they were received, in order (up
    to a pair the INTEGER column refuses), each with the estimate of that
    raw signal as the REAL column holds it.  So in a store that only
    [scan] has written every distance equals [calculate_distance] of the
    row's signal as a number (the integer 0 is held as 0.0; a NaN, which
    only a NaN of the library's power gives, is held as NULL), and a
    positive signal is stored unshifted beside a distance computed from
    the signal minus 100. *)
Theorem scan_stores_raw_signal nmcli w :
  (exists rows,
     wifi_signal (snd (scan libm_pow10 wall_clock nmcli w)) =
       wifi_signal w ++ rows /\
     map (fun r => (ssid r, rssi r)) rows =
       storable_prefix (strong_enough (get_wifi_signal nmcli)) /\
     Forall (fun r => distance r =
                        real_affinity (calculate_distance libm_pow10 (rssi r)))
            rows) /\
  (reachable libm_pow10 wall_clock w ->
   Forall (fun r =>
             match distance r with
             | Some x =>
                 Py.num_eqb (Py.PyFloat x)
                            (calculate_distance libm_pow10 (rssi r)) = true
             | None => calculate_distance libm_pow10 (rssi r)
                       = Py.PyFloat B64.NaN
             end)
          (wifi_signal w)) /\
  ((forall n, libm_pow10 n <> B64.NaN) ->
   reachable libm_pow10 wall_clock w ->
   Forall (fun r =>
             exists x, distance r = Some x /\
                       Py.num_eqb (Py.PyFloat x)
                         (calculate_distance libm_pow10 (rssi r)) = true)
          (wifi_signal w)) /\
  (forall name s,
     In (name, s) (get_wifi_signal nmcli) -> 0 < s ->
     Forall (fun p => fits_int64 (snd p) = true)
            (strong_enough (get_wifi_signal nmcli)) ->
     exists r,
       In r (wifi_signal (snd (scan libm_pow10 wall_clock nmcli w))) /\
       ssid r = name /\ rssi r = s /\
       distance r =
         real_affinity
           match distance_formula libm_pow10 (s - 100) with
           | Ok d => Py.PyFloat d
           | Raise _ => Py.PyInt 0
           end).
Proof.
  assert (R : reachable libm_pow10 wall_clock w ->
    Forall (fun r =>
              match distance r with
              | Some x =>
                  Py.num_eqb (Py.PyFloat x)
                             (calculate_distance libm_pow10 (rssi r)) = true
              | None => calculate_distance libm_pow10 (rssi r)
                        = Py.PyFloat B64.NaN
              end)
           (wifi_signal w)).
  { intros Hr.
    destruct (reachable_invariant libm_pow10 wall_clock w Hr)
      as (_ & _ & _ & _ & Hf).
    eapply Forall_impl; [|exact Hf]. cbn beta. intros r (_ & _ & ->).
    apply real_affinity_estimate. }
  split; [|split; [exact R|split]].
  - destruct (scan_rows libm_pow10 wall_clock nmcli w) as (rows & Ht & Hm & _).
    exists rows. split; [assumption|].
    split; [apply (triples_pairs libm_pow10); assumption|].
    eapply Forall_impl; [|apply (triples_forall libm_pow10 rows _ Hm)].
    cbn beta. intros r (_ & _ & _ & H). exact H.
  - intros Hn Hr. eapply Forall_impl; [|exact (R Hr)]. cbn beta.
    intros r H. destruct (distance r) as [x|]; [eauto|].
    exfalso. revert H. apply calculate_distance_not_nan. assumption.
  - intros name s Hin Hs Hfit.
    destruct (storable_prefix_all _ Hfit) as [E _].
    destruct (scan_rows libm_pow10 wall_clock nmcli w) as (rows & Ht & Hm & _).
    rewrite E in Hm.
    assert (Hi : In (name, s,
                     real_affinity (calculate_distance libm_pow10 s))
                   (map (fun r => (ssid r, rssi r, distance r)) rows)).
    { rewrite Hm. apply in_map_iff. exists (name, s). split; [reflexivity|].
      apply strong_enough_In. cbn [snd]. split; [assumption|lia]. }
    apply in_map_iff in Hi as (r & Hr & Hin').
    injection Hr as H1 H2 H3. exists r.
    split; [rewrite Ht; apply in_or_app; right; assumption|].
    split; [assumption|]. split; [assumption|].
    rewrite H3. unfold calculate_distance. rewrite normalize_pos by lia.
    reflexivity.
Qed.

End HandlerTheorems.

(** C5, as the code has it: a signal of [2^63] passes the filter, but the
    INSERT refuses it, so the pair is not stored. *)
Lemma scan_unstorable_signal_not_stored :
  ~ (forall nmcli w name s,
       In (name, s) (get_wifi_signal nmcli) -> -80 <= s ->
       exists r,
         In r (wifi_signal (snd (scan Libm.pow10 frozen_clock nmcli w))) /\
         ssid r = name /\ rssi r = s).
Proof.
  intros H.
  destruct (H (Ok "Big:9223372036854775808"%string) (setup_database None)
              "Big"%string (2 ^ 63)) as (r & Hin & _).
  - rewrite get_wifi_signal_big. left. reflexivity.
  - lia.
  - destruct (scan_rows Libm.pow10 frozen_clock
                (Ok "Big:9223372036854775808"%string) (setup_database None))
      as (rows & Ht & Hm & _).
    rewrite get_wifi_signal_big in Hm.
    change (storable_prefix (strong_enough [("Big"%string, 2 ^ 63)]))
      with (@nil (string * Z)) in Hm.
    apply map_eq_nil in Hm. subst rows. rewrite Ht in Hin. exact Hin.
Qed.


Lemma scan_drops_weak_signals_witness :
  fst (scan Libm.pow10 frozen_clock
         (Ok ("HomeNet:-60" ++ String newline "Guest:-85")%string)
         sample_store) =
  Ok [("status", JString "Scan complete")]%string.
Proof.
  apply (scan_drops_weak_signals Libm.pow10 frozen_clock
           (Ok ("HomeNet:-60" ++ String newline "Guest:-85")%string)
           sample_store).
  rewrite get_wifi_signal_two_lines. repeat constructor.
Defined.


Lemma scan_source_failure_witness :
  scan Libm.pow10 frozen_clock (Raise CalledProcessError) sample_store =
  (Ok [("status", JString "Scan complete")]%string, sample_store).
Proof.
  apply (scan_source_failure Libm.pow10 frozen_clock
           (Raise CalledProcessError) sample_store).
  reflexivity.
Defined.

Lemma scan_stores_raw_signal_witness :
  exists r,
    In r (wifi_signal
            (snd (scan Libm.pow10 frozen_clock (Ok "Cafe:30"%string)
                    sample_store))) /\
    ssid r = "Cafe"%string /\ rssi r = 30 /\
    distance r =
      real_affinity
        match distance_formula Libm.pow10 (30 - 100) with
        | Ok d => Py.PyFloat d
        | Raise _ => Py.PyInt 0
        end.
Proof.
  apply (scan_stores_raw_signal Libm.pow10 frozen_clock
           (Ok "Cafe:30"%string) sample_store).
  - left. reflexivity.
  - lia.
  - repeat constructor.
Defined.

(** ** Queries and export *)

Lemma fetch_logs_none w :
  fetch_logs None w = order_by_timestamp_desc (wifi_signal w).
Proof. reflexivity. Qed.

Lemma fetch_logs_some filter_ssid w :
  filter_ssid <> EmptyString ->
  fetch_logs (Some filter_ssid) w =
  order_by_timestamp_desc
    (filter (fun r => String.eqb (ssid r) filter_ssid) (wifi_signal w)).
Proof. destruct filter_ssid; [congruence|reflexivity]. Qed.

(** C7, as the code has it: the empty string is no filter, so a query for
    the empty name returns the readings of every network. *)
Lemma fetch_logs_empty_filter_returns_all :
  ~ (forall filter_ssid w r,
       In r (fetch_logs (Some filter_ssid) w) -> ssid r = filter_ssid).
Proof.
  intros H.
  specialize (H EmptyString sample_store _ (or_intror (or_introl eq_refl))).
  discriminate H.
Qed.

(** C7 (amended): a query with a non-empty name returns exactly the stored
    readings of that name, a query without a name (or with the empty name)
    returns all stored readings, both descending by timestamp; for
    timestamps written by [strftime] the text order is the chronological
    order. *)
Theorem fetch_logs_filtered_sorted filter_ssid w :
  filter_ssid <> EmptyString ->
  Permutation (fetch_logs (Some filter_ssid) w)
    (filter (fun r => String.eqb (ssid r) filter_ssid) (wifi_signal w)) /\
  (forall r, In r (fetch_logs (Some filter_ssid) w) <->
             In r (wifi_signal w) /\ ssid r = filter_ssid) /\
  StronglySorted newer_first (fetch_logs (Some filter_ssid) w) /\
  Permutation (fetch_logs None w) (wifi_signal w) /\
  StronglySorted newer_first (fetch_logs None w) /\
  fetch_logs (Some EmptyString) w = fetch_logs None w /\
  (forall a b, well_formed a -> well_formed b ->
     String.compare (strftime a) (strftime b) = datetime_compare a b).
Proof.
  intros Hne. rewrite fetch_logs_some by assumption. rewrite fetch_logs_none.
  split; [apply order_by_timestamp_desc_perm|].
  split; [|split; [apply order_by_timestamp_desc_sorted|]].
  - intros r. split.
    + intros H. apply (Permutation_in _ (order_by_timestamp_desc_perm _)) in H.
      apply filter_In in H as [H1 H2]. apply String.eqb_eq in H2. auto.
    + intros [H1 H2].
      apply (Permutation_in _ (Permutation_sym (order_by_timestamp_desc_perm _))).
      apply filter_In. split; [assumption|]. apply String.eqb_eq. assumption.
  - split; [apply order_by_timestamp_desc_perm|].
    split; [apply order_by_timestamp_desc_sorted|].
    split; [reflexivity|]. exact strftime_compare.
Qed.

Lemma fetch_logs_filtered_sorted_witness :
  Permutation (fetch_logs (Some "HomeNet"%string) sample_store)
    (filter (fun r => String.eqb (ssid r) "HomeNet") (wifi_signal sample_store)).
Proof.
  apply (fetch_logs_filtered_sorted "HomeNet"%string sample_store).
  discriminate.
Defined.

(** C8: the exported rows are the fixed header followed by the rows of an
    unfiltered query, each with its columns in the header's order; there
    is one more row than stored readings. *)
Theorem export_logs_to_csv_rows w :
  snd (export_logs_to_csv w) =
    [CText "ID"; CText "Timestamp"; CText "SSID"; CText "RSSI (dBm)";
     CText "Distance (m)"]%string
    :: map (fun r => [CInt (id r); CText (timestamp r); CText (ssid r);
                      CInt (rssi r); CNum (distance r)])
           (fetch_logs None w) /\
  List.length (snd (export_logs_to_csv w)) = S (List.length (wifi_signal w)) /\
  fst (export_logs_to_csv w) = "wifi_signal_logs.csv"%string.
Proof.
  split; [reflexivity|]. split; [|reflexivity].
  unfold export_logs_to_csv. cbn [snd List.length]. rewrite length_map.
  rewrite fetch_logs_none.
  rewrite (Permutation_length (order_by_timestamp_desc_perm _)). reflexivity.
Qed.

(** ** Further properties of the estimator *)

Section EstimatorExtras.
Import B64 B64Facts Py.

Lemma round_half_even_unique num den q :
  0 < den ->
  (2 * q - 1) * den <= 2 * num <= (2 * q + 1) * den ->
  (2 * num = (2 * q + 1) * den -> Z.even q = true) ->
  (2 * num = (2 * q - 1) * den -> Z.even q = true) ->
  round_half_even num den = q.
Proof.
  intros Hd [L U] Eu El.
  destruct (round_half_even_spec num den Hd) as ([L' U'] & Eu' & El').
  set (q' := round_half_even num den) in *.
  assert (q - 1 <= q' <= q + 1) by nia.
  destruct (Z.eq_dec q' q) as [|NE]; [assumption|exfalso].
  destruct (Z.eq_dec q' (q + 1)) as [E|NE'].
  - assert (E1 : 2 * num = (2 * q + 1) * den) by nia.
    assert (E2 : 2 * num = (2 * q' - 1) * den) by nia.
    specialize (Eu E1). specialize (El' E2).
    rewrite E, Z.even_add, Eu in El'. discriminate.
  - assert (E' : q' = q - 1) by lia.
    assert (E1 : 2 * num = (2 * q - 1) * den) by nia.
    assert (E2 : 2 * num = (2 * q' + 1) * den) by nia.
    specialize (El E1). specialize (Eu' E2).
    rewrite E', Z.even_sub, El in Eu'. discriminate.
Qed.

Lemma round_half_even_opp num den :
  0 < den -> round_half_even (- num) den = - round_half_even num den.
Proof.
  intros Hd.
  destruct (round_half_even_spec num den Hd) as ([L U] & Eu & El).
  apply round_half_even_unique; try assumption.
  - nia.
  - intros H. rewrite Z.even_opp. apply El. nia.
  - intros H. rewrite Z.even_opp. apply Eu. nia.
Qed.

Lemma round_scaled_opp num den :
  0 < den -> round_scaled (- num) den = - round_scaled num den.
Proof.
  intros Hd. unfold round_scaled.
  rewrite Z.mul_opp_l, Z.abs_opp.
  assert (0 < 2 ^ ulp_exp (Z.abs (num * 2 ^ emin) / den)).
  { apply Z.pow_pos_nonneg; [lia|apply ulp_exp_nonneg]. }
  rewrite round_half_even_opp by nia. lia.
Qed.

Lemma round_scaled_huge : round_scaled (20 * 2 ^ 1024) 20 = huge.
Proof. vm_compute. reflexivity. Qed.

(** A quotient of magnitude [2^1024] or more is too large for a float. *)
Lemma int_truediv_overflow k :
  20 * 2 ^ 1024 <= Z.abs k -> int_truediv k 20 = Raise OverflowError.
Proof.
  intros H. unfold int_truediv. cbn [Z.eqb Z.ltb Z.compare].
  assert (G : forall n, 20 * 2 ^ 1024 <= n -> huge <= round_scaled n 20).
  { intros n Hn. rewrite <- round_scaled_huge.
    apply round_scaled_mono; try lia. }
  unfold round_ratio, of_scaled. pose proof huge_pos.
  destruct (Z_le_gt_dec 0 k) as [Hk|Hk].
  - rewrite Z.abs_eq in H by lia. specialize (G k H).
    destruct (Z.leb_spec huge (round_scaled k 20)); [reflexivity|lia].
  - rewrite Z.abs_neq in H by lia. specialize (G (- k) H).
    replace k with (- - k) by lia. rewrite round_scaled_opp by lia.
    destruct (Z.leb_spec huge (- round_scaled (- k) 20)); [reflexivity|].
    destruct (Z.leb_spec (- round_scaled (- k) 20) (- huge)); [reflexivity|lia].
Qed.

Variable libm_pow10 : Z -> float.

(** X10: a reading so far from the reference that the exponent itself does
    not fit a double is estimated as the integer 0, whatever the library's
    power function is. *)
Theorem calculate_distance_division_overflow s :
  20 * 2 ^ 1024 <= Z.abs (REFERENCE_RSSI - normalize s) ->
  calculate_distance libm_pow10 s = PyInt 0.
Proof.
  intros H. unfold calculate_distance, distance_formula, distance_meters.
  change (10 * PATH_LOSS_EXPONENT) with 20.
  rewrite int_truediv_overflow by assumption. reflexivity.
Qed.

(** X11: on each side of zero a weaker reading never gives a smaller
    estimate, for a library power that is accurate at the two exponents;
    this covers the positive, percentage-like readings. *)
Theorem calculate_distance_antitone_same_sign s1 s2 p1 p2 :
  s1 <= s2 -> (s2 <= 0 \/ 0 < s1) ->
  distance_meters libm_pow10 (normalize s1) = Ok p1 ->
  distance_meters libm_pow10 (normalize s2) = Ok p2 ->
  pow10_accurate (REFERENCE_RSSI - normalize s1) p1 ->
  pow10_accurate (REFERENCE_RSSI - normalize s2) p2 ->
  num_le (calculate_distance libm_pow10 s2) (calculate_distance libm_pow10 s1).
Proof.
  intros H12 Hsign E1 E2 A1 A2.
  assert (Hn : normalize s1 <= normalize s2).
  { unfold normalize. destruct (Z.ltb_spec 0 s1), (Z.ltb_spec 0 s2); lia. }
  destruct (Z.eq_dec (normalize s1) (normalize s2)) as [E|NE].
  - rewrite E in E1. rewrite E1 in E2. inversion E2; subst p2.
    apply (calculate_distance_mono libm_pow10 s1 s2 p1 p1);
      rewrite ?E; try assumption;
      destruct p1; cbn [pow10_accurate] in A1; try contradiction;
      unfold le; cbn [leb zero]; apply Z.leb_le; lia.
  - destruct (pow10_accurate_le (REFERENCE_RSSI - normalize s1)
                (REFERENCE_RSSI - normalize s2) p1 p2) as [Z2 L];
      try assumption; try lia.
    apply (calculate_distance_mono libm_pow10 s1 s2 p1 p2); assumption.
Qed.

End EstimatorExtras.

Lemma calculate_distance_division_overflow_witness :
  calculate_distance Libm.pow10 (- (20 * 2 ^ 1024) - 50) = Py.PyInt 0.
Proof.
  apply (calculate_distance_division_overflow Libm.pow10).
  apply Z.leb_le. vm_compute. reflexivity.
Defined.

Lemma calculate_distance_antitone_same_sign_witness :
  Py.num_le (calculate_distance Libm.pow10 70) (calculate_distance Libm.pow10 40).
Proof.
  eapply (calculate_distance_antitone_same_sign Libm.pow10 40 70).
  - lia.
  - right. lia.
  - vm_compute. reflexivity.
  - vm_compute. reflexivity.
  - cbn [pow10_accurate]. repeat split; apply Z.leb_le; vm_compute; reflexivity.
  - cbn [pow10_accurate]. repeat split; apply Z.leb_le; vm_compute; reflexivity.
Defined.

(** ** Further properties of the scan parser *)

Lemma two_digits_within_limit z : Z.abs z < 100 -> Z.abs z < 10 ^ 4300.
Proof.
  intros H. apply Z.lt_le_trans with (10 ^ 2); [exact H|].
  apply Z.pow_le_mono_r; [reflexivity|discriminate].
Qed.

Lemma get_wifi_signal_nmcli_output_witness :
  get_wifi_signal (Ok (nmcli_output [("HomeNet", -60); ("", 85)]%string))
  = [("HomeNet", -60); ("", 85)]%string.
Proof.
  apply (get_wifi_signal_nmcli_output [("HomeNet", -60); ("", 85)]%string).
  - repeat constructor.
  - reflexivity.
  - repeat first [apply Forall_nil
                 |apply Forall_cons;
                  [apply two_digits_within_limit; reflexivity|]].
Defined.

(** X2: the parser is all or nothing: its result is empty, or it holds
    exactly the parse of every line of the stripped output, in line
    order. *)
Theorem get_wifi_signal_all_or_nothing out :
  get_wifi_signal (Ok out) = [] \/
  map parse_line (PyStr.split newline (PyStr.strip out)) =
  map Ok (get_wifi_signal (Ok out)).
Proof.
  unfold get_wifi_signal. cbn [bind].
  destruct (parse_lines (PyStr.split newline (PyStr.strip out)) [])
    as [l|e] eqn:E; [|left; reflexivity].
  right. destruct (parse_lines_ok _ _ _ E) as (pairs & -> & Hm). exact Hm.
Qed.

(** X3: a line whose number of colons is not one, such as a network name
    that holds a colon, empties the whole scan. *)
Theorem get_wifi_signal_colon_count out line :
  In line (PyStr.split newline (PyStr.strip out)) ->
  PyStr.count ":"%char line <> 1%nat ->
  get_wifi_signal (Ok out) = [].
Proof.
  intros Hin Hc.
  apply (get_wifi_signal_malformed out line ValueError Hin).
  apply parse_line_colons. assumption.
Qed.

Lemma get_wifi_signal_colon_count_witness :
  get_wifi_signal
    (Ok ("HomeNet:60" ++ String newline "Caf:e:70")%string) = [].
Proof.
  apply (get_wifi_signal_colon_count _ "Caf:e:70"%string).
  - right. left. reflexivity.
  - discriminate.
Defined.

(** X4: whitespace around the output, such as the final newline, does not
    change the result. *)
Theorem get_wifi_signal_ignores_surrounding_space ws out ws' :
  PyStr.all_chars PyStr.is_space ws = true ->
  PyStr.all_chars PyStr.is_space ws' = true ->
  get_wifi_signal (Ok (ws ++ out ++ ws')%string) = get_wifi_signal (Ok out).
Proof.
  intros H H'. unfold get_wifi_signal. cbn [bind].
  rewrite strip_surrounding_space by assumption. reflexivity.
Qed.

Lemma get_wifi_signal_ignores_surrounding_space_witness :
  get_wifi_signal (Ok (" " ++ "HomeNet:60" ++ String newline "")%string)
  = get_wifi_signal (Ok "HomeNet:60"%string).
Proof.
  apply (get_wifi_signal_ignores_surrounding_space " " "HomeNet:60"
           (String newline "")); reflexivity.
Defined.

(** ** Further properties of the store and the handlers *)

Section HandlerExtras.

Variable libm_pow10 : Z -> B64.float.
Variable wall_clock : nat -> datetime.

Lemma seq_sorted n : forall a,
  StronglySorted Z.lt (map Z.of_nat (seq a n)).
Proof.
  induction n as [|n IH]; intros a; cbn [seq map]; constructor.
  - apply IH.
  - apply Forall_forall. intros z Hz. apply in_map_iff in Hz as (i & <- & Hi).
    apply in_seq in Hi. lia.
Qed.

(** X5: in a store filled from a fresh database the identifiers are
    1, 2, ..., n in insertion order, so they are unique and strictly
    increasing, and the counter holds n. *)
Theorem reachable_store_ids w :
  reachable libm_pow10 wall_clock w ->
  map id (wifi_signal w) =
    map Z.of_nat (seq 1 (List.length (wifi_signal w))) /\
  StronglySorted Z.lt (map id (wifi_signal w)) /\
  sqlite_sequence w = Z.of_nat (List.length (wifi_signal w)).
Proof.
  intros Hr.
  destruct (reachable_invariant libm_pow10 wall_clock w Hr)
    as (Hq & _ & Hi & _ & _).
  split; [assumption|]. split; [|assumption].
  rewrite Hi. apply seq_sorted.
Qed.

(** X6: no store filled from a fresh database holds a reading weaker
    than -80. *)
Theorem reachable_store_no_weak_signal w :
  reachable libm_pow10 wall_clock w ->
  Forall (fun r => -80 <= rssi r) (wifi_signal w).
Proof.
  intros Hr.
  destruct (reachable_invariant libm_pow10 wall_clock w Hr)
    as (_ & _ & _ & _ & Hf).
  eapply Forall_impl; [|exact Hf]. cbn beta. intros r [H _]. exact H.
Qed.

Lemma map_sorted_seq (f : nat -> string) n : forall a,
  (forall i j, (a <= i <= j)%nat -> (j < a + n)%nat ->
     String.leb (f i) (f j) = true) ->
  StronglySorted (fun x y => String.leb x y = true) (map f (seq a n)).
Proof.
  induction n as [|n IH]; intros a Hf; cbn [seq map]; constructor.
  - apply IH. intros i j Hij Hj. apply Hf; lia.
  - apply Forall_forall. intros z Hz. apply in_map_iff in Hz as (i & <- & Hi).
    apply in_seq in Hi. apply Hf; lia.
Qed.

(** X7: when the clock never runs backwards, the timestamps of a store
    filled from a fresh database are non-decreasing, as text, in insertion
    order. *)
Theorem reachable_store_timestamps_sorted w :
  (forall n, (n < List.length (wifi_signal w))%nat ->
     well_formed (wall_clock n)) ->
  (forall i j, (i <= j)%nat -> (j < List.length (wifi_signal w))%nat ->
     datetime_compare (wall_clock i) (wall_clock j) <> Gt) ->
  reachable libm_pow10 wall_clock w ->
  StronglySorted (fun x y => String.leb x y = true)
    (map timestamp (wifi_signal w)).
Proof.
  intros Hw Hc Hr.
  destruct (reachable_invariant libm_pow10 wall_clock w Hr)
    as (_ & _ & _ & Hs & _).
  rewrite Hs. apply (map_sorted_seq (fun i => strftime (wall_clock i))).
  intros i j Hij Hj. cbn beta. unfold String.leb.
  rewrite strftime_compare by (apply Hw; lia).
  specialize (Hc i j ltac:(lia) ltac:(lia)).
  destruct (datetime_compare (wall_clock i) (wall_clock j)); congruence.
Qed.

Lemma storable_prefix_split (pairs : list (string * Z)) :
  exists later,
    pairs = storable_prefix pairs ++ later /\
    (forallb (fun p => fits_int64 (snd p)) pairs = false -> later <> []).
Proof.
  induction pairs as [|p pairs (later & E & N)].
  - exists []. split; [reflexivity|discriminate].
  - cbn [storable_prefix forallb]. destruct (fits_int64 (snd p)).
    + exists later. cbn [app andb]. split; [congruence|assumption].
    + exists (p :: pairs). split; [reflexivity|discriminate].
Qed.

Lemma debug_objects_of_rows rows (k : list (string * Z)) :
  map (fun r => (ssid r, rssi r, distance r)) rows =
  map (fun p => (fst p, snd p,
                 real_affinity (calculate_distance libm_pow10 (snd p)))) k ->
  map (fun p => [("SSID", JString (fst p)); ("RSSI", JNumber (Py.PyInt (snd p)));
                 ("Distance", JNumber (calculate_distance libm_pow10 (snd p)))]%string)
      k =
  map (fun r => [("SSID", JString (ssid r)); ("RSSI", JNumber (Py.PyInt (rssi r)));
                 ("Distance",
                  JNumber (calculate_distance libm_pow10 (rssi r)))]%string)
      rows.
Proof.
  intros H. apply triples_pairs in H. rewrite <- H, map_map. reflexivity.
Qed.

(** X8: [debug_logs] is a dry run of [scan].  When the request to [scan]
    succeeds, the rows it stores are, in order, exactly the pairs that
    [debug_logs] lists for the same scan result, and each stored distance
    is the listed estimate as the REAL column holds it; when the request
    fails, the rows stored are the first of the listed pairs, and not all
    of them. *)
Theorem debug_logs_matches_scan nmcli w :
  exists rows,
    wifi_signal (snd (scan libm_pow10 wall_clock nmcli w)) =
      wifi_signal w ++ rows /\
    Forall (fun r => distance r =
                       real_affinity (calculate_distance libm_pow10 (rssi r)))
           rows /\
    (fst (scan libm_pow10 wall_clock nmcli w) =
       Ok [("status", JString "Scan complete")]%string ->
     debug_logs libm_pow10 nmcli =
       map (fun r => [("SSID", JString (ssid r));
                      ("RSSI", JNumber (Py.PyInt (rssi r)));
                      ("Distance",
                       JNumber (calculate_distance libm_pow10 (rssi r)))]%string)
           rows) /\
    (forall e, fst (scan libm_pow10 wall_clock nmcli w) = Raise e ->
     exists later,
       later <> [] /\
       debug_logs libm_pow10 nmcli =
         map (fun r => [("SSID", JString (ssid r));
                        ("RSSI", JNumber (Py.PyInt (rssi r)));
                        ("Distance",
                         JNumber (calculate_distance libm_pow10 (rssi r)))]%string)
             rows ++ later).
Proof.
  destruct (scan_rows libm_pow10 wall_clock nmcli w) as (rows & Ht & Hm & Hr).
  exists rows. split; [assumption|]. split; [|split].
  - eapply Forall_impl; [|apply (triples_forall libm_pow10 rows _ Hm)].
    cbn beta. intros r (_ & _ & _ & H). exact H.
  - intros Hok. rewrite Hr in Hok.
    destruct (forallb _ _) eqn:F; [|discriminate].
    rewrite forallb_forall in F. apply Forall_forall in F.
    destruct (storable_prefix_all _ F) as [E _]. rewrite E in Hm.
    unfold debug_logs. rewrite debug_loop_objects. cbn [app].
    apply debug_objects_of_rows. assumption.
  - intros e He. rewrite Hr in He.
    destruct (forallb _ _) eqn:F; [discriminate|].
    destruct (storable_prefix_split (strong_enough (get_wifi_signal nmcli)))
      as (later & E & N).
    exists (map (fun p => [("SSID", JString (fst p));
                           ("RSSI", JNumber (Py.PyInt (snd p)));
                           ("Distance",
                            JNumber (calculate_distance libm_pow10
                                       (snd p)))]%string) later).
    split.
    + intros X. apply map_eq_nil in X. exact (N F X).
    + unfold debug_logs. rewrite debug_loop_objects. cbn [app].
      rewrite E at 1. rewrite map_app. f_equal.
      apply debug_objects_of_rows. assumption.
Qed.

End HandlerExtras.

Lemma scanned_store_reachable libm_pow10 :
  reachable libm_pow10 ticking_clock (scanned_store libm_pow10).
Proof. apply reachable_scan. apply reachable_setup. Qed.

Lemma scanned_store_length :
  List.length (wifi_signal (scanned_store Libm.pow10)) = 2%nat.
Proof. vm_compute. reflexivity. Qed.

Lemma ticking_clock_well_formed n : (n < 60)%nat -> well_formed (ticking_clock n).
Proof. intros H. unfold well_formed, ticking_clock. cbn. lia. Qed.

Lemma ticking_clock_compare i j :
  datetime_compare (ticking_clock i) (ticking_clock j) =
  (Z.of_nat i ?= Z.of_nat j).
Proof. reflexivity. Qed.

Lemma reachable_store_ids_witness :
  sqlite_sequence (scanned_store Libm.pow10) =
  Z.of_nat (List.length (wifi_signal (scanned_store Libm.pow10))).
Proof.
  apply (reachable_store_ids Libm.pow10 ticking_clock _
           (scanned_store_reachable Libm.pow10)).
Defined.

Lemma reachable_store_no_weak_signal_witness :
  Forall (fun r => -80 <= rssi r) (wifi_signal (scanned_store Libm.pow10)).
Proof.
  apply (reachable_store_no_weak_signal Libm.pow10 ticking_clock _
           (scanned_store_reachable Libm.pow10)).
Defined.

Lemma debug_logs_matches_scan_witness :
  debug_logs Libm.pow10 (Ok "Cafe:30"%string) =
  map (fun r => [("SSID", JString (ssid r));
                 ("RSSI", JNumber (Py.PyInt (rssi r)));
                 ("Distance",
                  JNumber (calculate_distance Libm.pow10 (rssi r)))]%string)
      (skipn 2
         (wifi_signal
            (snd (scan Libm.pow10 frozen_clock (Ok "Cafe:30"%string)
                    sample_store)))).
Proof.
  destruct (debug_logs_matches_scan Libm.pow10 frozen_clock
              (Ok "Cafe:30"%string) sample_store)
    as (rows & Ht & _ & Hok & _).
  rewrite Ht. change (skipn 2 (wifi_signal sample_store ++ rows)) with rows.
  apply Hok.
  destruct (scan_rows Libm.pow10 frozen_clock (Ok "Cafe:30"%string)
              sample_store) as (_ & _ & _ & ->).
  reflexivity.
Defined.

Lemma reachable_store_timestamps_sorted_witness :
  StronglySorted (fun x y => String.leb x y = true)
    (map timestamp (wifi_signal (scanned_store Libm.pow10))).
Proof.
  apply (reachable_store_timestamps_sorted Libm.pow10 ticking_clock).
  - intros n Hn. rewrite scanned_store_length in Hn.
    apply ticking_clock_well_formed. lia.
  - intros i j Hij Hj. rewrite ticking_clock_compare.
    intros H. apply Z.compare_gt_iff in H. lia.
  - apply scanned_store_reachable.
Defined.

(** ** Further properties of the queries and the export *)

(** X13: [/logs] with a non-empty name answers one object per stored
    reading of that name, each carrying that name; without a name, one
    object per stored reading. *)
Theorem logs_filtered_objects filter_ssid w :
  filter_ssid <> EmptyString ->
  Forall (fun o => In ("ssid"%string, JString filter_ssid) o)
         (logs (Some filter_ssid) w) /\
  List.length (logs (Some filter_ssid) w) =
    List.length (filter (fun r => String.eqb (ssid r) filter_ssid)
                        (wifi_signal w)) /\
  List.length (logs None w) = List.length (wifi_signal w).
Proof.
  intros Hne. unfold logs. rewrite !length_map.
  rewrite fetch_logs_some by assumption. rewrite fetch_logs_none.
  rewrite !(Permutation_length (order_by_timestamp_desc_perm _)).
  split; [|split; reflexivity].
  apply Forall_forall. intros o Ho. apply in_map_iff in Ho as (r & <- & Hr).
  apply (Permutation_in _ (order_by_timestamp_desc_perm _)) in Hr.
  apply filter_In in Hr as [_ Hr]. apply String.eqb_eq in Hr. rewrite Hr.
  right. right. left. reflexivity.
Qed.

Lemma logs_filtered_objects_witness :
  List.length (logs (Some "Guest"%string) sample_store) =
  List.length (filter (fun r => String.eqb (ssid r) "Guest")
                      (wifi_signal sample_store)).
Proof.
  apply (logs_filtered_objects "Guest"%string sample_store). discriminate.
Defined.

Section QueryExtras.

Variable libm_pow10 : Z -> B64.float.
Variable wall_clock : nat -> datetime.

Lemma log_to_database_ok name s d w :
  fits_int64 s = true -> sql_bind d = Ok d ->
  log_to_database wall_clock name s d w =
  Ok {| wifi_signal := wifi_signal w ++
          [{| id := sqlite_sequence w + 1;
              timestamp := strftime (wall_clock (ticks w));
              ssid := name; rssi := s; distance := real_affinity d |}];
        sqlite_sequence := sqlite_sequence w + 1;
        ticks := S (ticks w) |}.
Proof.
  intros Hs Hd. unfold log_to_database. cbn [sql_bind].
  rewrite Hs, Hd. reflexivity.
Qed.

(** X15: a reading handed to [log_to_database] with a signal within 64
    bits and a distance that is a float or an integer within 64 bits is
    stored, and returned by the next unfiltered query, and by the query
    for its own name when that name is not empty, with its name and signal
    as given and its distance as the REAL column holds it: the integer 0
    as 0.0, the integer 2^53 + 1 as the double 2^53, a NaN as NULL; the
    readings stored before are still returned.  A signal or an integer
    distance outside 64 bits makes the INSERT raise OverflowError. *)
Theorem log_to_database_then_fetch name s d w :
  (fits_int64 s = true -> sql_bind d = Ok d ->
   exists w' r,
     log_to_database wall_clock name s d w = Ok w' /\
     In r (fetch_logs None w') /\
     (name <> EmptyString -> In r (fetch_logs (Some name) w')) /\
     ssid r = name /\ rssi r = s /\ distance r = real_affinity d /\
     id r = sqlite_sequence w + 1 /\
     (forall r0, In r0 (fetch_logs None w) -> In r0 (fetch_logs None w'))) /\
  (fits_int64 s = false ->
   log_to_database wall_clock name s d w = Raise OverflowError) /\
  (forall z, d = Py.PyInt z -> fits_int64 z = false ->
   log_to_database wall_clock name s d w = Raise OverflowError) /\
  real_affinity (Py.PyInt 0) = Some B64.zero /\
  real_affinity (Py.PyInt (2 ^ 53 + 1)) = Some (B64.of_Z (2 ^ 53)) /\
  real_affinity (Py.PyFloat B64.NaN) = None /\
  (forall x, x <> B64.NaN -> real_affinity (Py.PyFloat x) = Some x).
Proof.
  split; [|split; [|split; [|split; [|split; [|split]]]]].
  - intros Hs Hd. rewrite (log_to_database_ok name s d w Hs Hd).
    eexists _, {| id := sqlite_sequence w + 1;
                  timestamp := strftime (wall_clock (ticks w));
                  ssid := name; rssi := s; distance := real_affinity d |}.
    split; [reflexivity|].
    split; [|split; [|do 4 (split; [reflexivity|])]].
    + rewrite fetch_logs_none.
      apply (Permutation_in _ (Permutation_sym (order_by_timestamp_desc_perm _))).
      cbn [wifi_signal]. apply in_or_app. right. left. reflexivity.
    + intros Hne. rewrite fetch_logs_some by assumption.
      apply (Permutation_in _ (Permutation_sym (order_by_timestamp_desc_perm _))).
      apply filter_In. cbn [wifi_signal ssid]. split.
      * apply in_or_app. right. left. reflexivity.
      * apply String.eqb_refl.
    + intros r0. rewrite !fetch_logs_none. intros H.
      apply (Permutation_in _ (order_by_timestamp_desc_perm _)) in H.
      apply (Permutation_in _ (Permutation_sym (order_by_timestamp_desc_perm _))).
      cbn [wifi_signal]. apply in_or_app. left. assumption.
  - intros Hs. unfold log_to_database. cbn [sql_bind]. rewrite Hs.
    reflexivity.
  - intros z -> Hz. unfold log_to_database. cbn [sql_bind]. rewrite Hz.
    destruct (fits_int64 s); reflexivity.
  - vm_compute. reflexivity.
  - vm_compute. reflexivity.
  - reflexivity.
  - intros x Hx. destruct x; try reflexivity. congruence.
Qed.

(** X16: after a scan in which every pair that passes the filter has a
    signal within 64 bits, every pair of the scan result whose signal is at
    least -80 is found by an unfiltered query, with the estimate of its
    signal, as the REAL column holds it, as distance. *)
Theorem scan_then_fetch nmcli w name s :
  In (name, s) (get_wifi_signal nmcli) -> -80 <= s ->
  Forall (fun p => fits_int64 (snd p) = true)
         (strong_enough (get_wifi_signal nmcli)) ->
  exists r,
    In r (fetch_logs None (snd (scan libm_pow10 wall_clock nmcli w))) /\
    ssid r = name /\ rssi r = s /\
    distance r = real_affinity (calculate_distance libm_pow10 s).
Proof.
  intros Hin Hs Hfit.
  destruct (storable_prefix_all _ Hfit) as [E _].
  destruct (scan_rows libm_pow10 wall_clock nmcli w) as (rows & Ht & Hm & _).
  rewrite E in Hm.
  assert (Hi : In (name, s, real_affinity (calculate_distance libm_pow10 s))
                 (map (fun r => (ssid r, rssi r, distance r)) rows)).
  { rewrite Hm. apply in_map_iff. exists (name, s). split; [reflexivity|].
    apply strong_enough_In. cbn [snd]. split; [assumption|lia]. }
  apply in_map_iff in Hi as (r & Hr & Hin'). injection Hr as H1 H2 H3.
  exists r. split; [|auto].
  rewrite fetch_logs_none.
  apply (Permutation_in _ (Permutation_sym (order_by_timestamp_desc_perm _))).
  rewrite Ht. apply in_or_app. right. assumption.
Qed.

End QueryExtras.

Lemma log_to_database_then_fetch_witness :
  exists w' r,
    log_to_database frozen_clock "Cafe"%string 10 (Py.PyInt 0) sample_store
    = Ok w' /\
    In r (fetch_logs None w') /\
    ("Cafe"%string <> EmptyString ->
     In r (fetch_logs (Some "Cafe"%string) w')) /\
    ssid r = "Cafe"%string /\ rssi r = 10 /\
    distance r = real_affinity (Py.PyInt 0) /\
    id r = sqlite_sequence sample_store + 1 /\
    (forall r0, In r0 (fetch_logs None sample_store) ->
                In r0 (fetch_logs None w')).
Proof.
  apply (log_to_database_then_fetch frozen_clock "Cafe"%string 10
           (Py.PyInt 0) sample_store); reflexivity.
Defined.

Lemma scan_then_fetch_witness :
  exists r,
    In r (fetch_logs None (scanned_store Libm.pow10)) /\
    ssid r = "Bar"%string /\ rssi r = 20 /\
    distance r = real_affinity (calculate_distance Libm.pow10 20).
Proof.
  assert (E : get_wifi_signal
                (Ok (nmcli_output [("Cafe", 10); ("Bar", 20)]%string)) =
              [("Cafe", 10); ("Bar", 20)]%string)
    by (vm_compute; reflexivity).
  apply (scan_then_fetch Libm.pow10 ticking_clock
           (Ok (nmcli_output [("Cafe", 10); ("Bar", 20)]%string))
           (setup_database None) "Bar"%string 20).
  - rewrite E. right. left. reflexivity.
  - lia.
  - rewrite E. repeat constructor.
Defined.
